(** * OasisMarketMakerKeeper: band reconciliation

    A shallow embedding of [market_maker_keeper/oasis_market_maker_keeper.py]
    and the properties of its reconciliation pass.

    - [Wad] amounts are Python integers counting 10^-18 units; addition,
      subtraction, comparison and [Wad.min] are the integer ones.
    - Margins are the numbers of the configuration file; the keeper only
      compares them, so they are kept as rationals.
    - The band classes, the price feed, the exchange and the token contracts
      are collaborators of the keeper: they enter as interfaces
      ([BandMethods], [WadOps], [Venue]).
    - Calls that read or change the outside world run in the monad [M], which
      threads the world, logs every call and stops at a raised exception. *)

From Stdlib Require Import ZArith QArith Qround List Bool String Lia Lqa.
From Stdlib Require Import Permutation.
Import ListNotations.
Open Scope Z_scope.

(** ** Data model *)

Definition Wad := Z.
Definition Address := Z.

(** pymaker.oasis.Order, as the keeper reads it. *)
Record Order := mkOrder {
  order_id : Z;
  owner : Address;
  sell_which_token : Address;
  sell_how_much : Wad;
  buy_which_token : Address;
  buy_how_much : Wad
}.

Inductive Side := Buy | Sell.

(** One entry of the [buyBands] / [sellBands] lists of the configuration. *)
Record BandSpec := mkBandSpec {
  minMargin : Q;
  avgMargin : Q;
  maxMargin : Q;
  minAmount : Wad;
  avgAmount : Wad;
  maxAmount : Wad;
  dustCutoff : Wad
}.

Record Config := mkConfig {
  buyBands : list BandSpec;
  sellBands : list BandSpec
}.

(** Modelled from the spec: the classes [BuyBand] and [SellBand] of
    [keeper.band] are imported, not defined, by the keeper.  A band carries
    the seven values of its configuration entry and the side it quotes. *)
Record Band := mkBand {
  side : Side;
  min_margin : Q;
  avg_margin : Q;
  max_margin : Q;
  min_amount : Wad;
  avg_amount : Wad;
  max_amount : Wad;
  dust_cutoff : Wad
}.

Definition band_of (s : Side) (d : BandSpec) : Band :=
  mkBand s (minMargin d) (avgMargin d) (maxMargin d)
         (minAmount d) (avgAmount d) (maxAmount d) (dustCutoff d).

Definition BuyBand : BandSpec -> Band := band_of Buy.
Definition SellBand : BandSpec -> Band := band_of Sell.

(** The methods of a band the keeper calls. *)
Class BandMethods := {
  includes : Band -> Order -> Wad -> bool;
  excessive_orders : Band -> list Order -> Wad -> list Order;
  avg_price : Band -> Wad -> Wad
}.

(** The [Wad] operations that are not plain integer arithmetic.  Division
    raises on a zero divisor: [None]. *)
Class WadOps := {
  wad_mul : Wad -> Wad -> Wad;
  wad_div : Wad -> Wad -> option Wad;
  wad_round : Wad -> Z -> Wad
}.

(** The transaction built by [otc.make]. *)
Record Make := mkMake {
  have_token : Address;
  have_amount : Wad;
  want_token : Address;
  want_amount : Wad
}.

(** ** Gas price selection *)

(** The strategies of pymaker.gas the keeper builds. *)
Inductive GasPrice :=
| DefaultGasPrice
| FixedGasPrice (price : Z)
| IncreasingGasPrice (initial_price increase_by every_secs : Z) (max_price : option Z).

(** The gas options of [self.arguments].  An option given without a default
    is [None] when it is left out of the command line. *)
Record GasArguments := mkGasArguments {
  gas_price : option Z;
  gas_price_increase : option Z;
  gas_price_increase_every : Z;
  gas_price_max : option Z;
  cancel_gas_price : option Z;
  cancel_gas_price_increase : option Z;
  cancel_gas_price_increase_every : Z;
  cancel_gas_price_max : option Z
}.

(** [x > 0]: comparing [None] with a number raises ([None]). *)
Definition greater_than_zero (x : option Z) : option bool :=
  match x with
  | Some v => Some (0 <? v)
  | None => None
  end.

(** [a and b] on comparisons: [b] is evaluated only when [a] holds. *)
Definition and_then (a b : option bool) : option bool :=
  match a with
  | Some true => b
  | _ => a
  end.

Definition gas_price_for_order_placement (arguments : GasArguments) : option GasPrice :=
  match and_then (greater_than_zero (gas_price arguments))
                 (greater_than_zero (gas_price_increase arguments)) with
  | None => None
  | Some true =>
      match gas_price arguments, gas_price_increase arguments with
      | Some initial, Some increase =>
          Some (IncreasingGasPrice initial increase
                  (gas_price_increase_every arguments) (gas_price_max arguments))
      | _, _ => None
      end
  | Some false =>
      match greater_than_zero (gas_price arguments), gas_price arguments with
      | Some true, Some price => Some (FixedGasPrice price)
      | Some false, _ => Some DefaultGasPrice
      | _, _ => None
      end
  end.

Definition gas_price_for_order_cancellation (arguments : GasArguments) : option GasPrice :=
  match and_then (greater_than_zero (cancel_gas_price arguments))
                 (greater_than_zero (cancel_gas_price_increase arguments)) with
  | None => None
  | Some true =>
      match cancel_gas_price arguments, cancel_gas_price_increase arguments with
      | Some initial, Some increase =>
          Some (IncreasingGasPrice initial increase
                  (cancel_gas_price_increase_every arguments)
                  (cancel_gas_price_max arguments))
      | _, _ => None
      end
  | Some false =>
      match greater_than_zero (cancel_gas_price arguments), cancel_gas_price arguments with
      | Some true, Some price => Some (FixedGasPrice price)
      | Some false, _ => gas_price_for_order_placement arguments
      | _, _ => None
      end
  end.

(** The command line defaults of the keeper: no gas price, every 120 s. *)
Definition default_gas_arguments : GasArguments :=
  mkGasArguments (Some 0) None 120 None (Some 0) None 120 None.

(** The attributes of the keeper object. *)
Record Keeper := mkKeeper {
  our_address : Address;
  sai : Address;
  gem : Address;
  min_eth_balance : Wad;
  round_places : Z;
  arguments : GasArguments
}.

(** Everything the keeper calls outside itself, in call order. *)
Inductive Event :=
| EthBalance
| GetConfig
| GetOrders
| GetPrice
| BalanceOf (token : Address)
| Terminate (message : string)
| Warning (message : string)
| Kill (id : Z)
| Place (m : Make).

(** The chain, the exchange and the feeds, as seen from the keeper. *)
Class Venue (World : Type) := {
  eth_balance : World -> Address -> Wad;
  get_config : World -> Config;
  get_orders : World -> list Order;
  get_price : World -> option Wad;
  balance_of : Address -> World -> Address -> Wad;
  submit_kills : Address -> list Z -> World -> World;
  submit_makes : Address -> list Make -> World -> World
}.

(** The gas price is selected anew for every transaction of a batch: a
    selection that raises stops a batch that has a transaction, and an empty
    batch never selects. *)
Definition gas_selected {A : Type} (selection : option GasPrice)
    (transactions : list A) : bool :=
  match transactions, selection with
  | _ :: _, None => false
  | _, _ => true
  end.

(** Whether the keeper can give a batch of cancellations, or of placements,
    its gas price. *)
Definition can_cancel (self : Keeper) (orders : list Order) : bool :=
  gas_selected (gas_price_for_order_cancellation (arguments self)) orders.

Definition can_place (self : Keeper) (ms : list Make) : bool :=
  gas_selected (gas_price_for_order_placement (arguments self)) ms.

(** ** Band validation *)

Definition Qlt_bool (x y : Q) : bool := negb (Qle_bool y x).

Definition two_bands_overlap (band1 band2 : Band) : bool :=
  Qlt_bool (min_margin band1) (max_margin band2)
  && Qlt_bool (min_margin band2) (max_margin band1).

Definition bands_overlap (bands : list Band) : bool :=
  existsb (fun band1 =>
             (1 <? List.length (filter (fun band2 => two_bands_overlap band1 band2) bands))%nat)
          bands.

(** ** Order classification *)

Section Classifier.
Variable self : Keeper.

Definition is_sell_order (order : Order) : bool :=
  (buy_which_token order =? sai self) && (sell_which_token order =? gem self).

Definition is_buy_order (order : Order) : bool :=
  (buy_which_token order =? gem self) && (sell_which_token order =? sai self).

Definition our_sell_orders (our_orders : list Order) : list Order :=
  filter is_sell_order our_orders.

Definition our_buy_orders (our_orders : list Order) : list Order :=
  filter is_buy_order our_orders.

End Classifier.

Definition total_amount (orders : list Order) : Wad :=
  fold_left Z.add (map sell_how_much orders) 0.

(** ** The keeper monad

    A computation reads and changes the world, logs the calls it makes and
    either returns a value or stops at a raised exception ([None]). *)

Section Engine.
Context {World : Type} {venue : Venue World}.
Context {band_methods : BandMethods} {wad_ops : WadOps}.
Variable self : Keeper.

Definition M (A : Type) : Type := World -> option A * World * list Event.

Definition ret {A : Type} (a : A) : M A := fun w => (Some a, w, []).

Definition bind {A B : Type} (m : M A) (k : A -> M B) : M B :=
  fun w =>
    match m w with
    | (Some a, w1, log1) =>
        match k a w1 with (r, w2, log2) => (r, w2, log1 ++ log2) end
    | (None, w1, log1) => (None, w1, log1)
    end.

Definition raise {A : Type} : M A := fun w => (None, w, []).

Definition call {A : Type} (e : Event) (read : World -> A) : M A :=
  fun w => (Some (read w), w, [e]).

Definition act (es : list Event) (f : World -> World) : M unit :=
  fun w => (Some tt, f w, es).

Notation "x <- m ;; k" := (bind m (fun x => k))
  (at level 61, m at next level, right associativity).
Notation "m ;;; k" := (bind m (fun _ => k))
  (at level 61, right associativity).

Definition terminate (message : string) : M unit := act [Terminate message] (fun w => w).
Definition logger_warning (message : string) : M unit := act [Warning message] (fun w => w).

(** ** Configuration *)

Definition band_configuration : M (list Band * list Band) :=
  config <- call GetConfig get_config ;;
  let buy_bands := map BuyBand (buyBands config) in
  let sell_bands := map SellBand (sellBands config) in
  if bands_overlap buy_bands || bands_overlap sell_bands then
    terminate "Bands in the config file overlap. Terminating the keeper." ;;;
    ret ([], [])
  else
    ret (buy_bands, sell_bands).

(** ** Orders of the keeper, cancellation *)

Definition our_orders : M (list Order) :=
  orders <- call GetOrders get_orders ;;
  ret (filter (fun order => owner order =? our_address self) orders).

Definition cancel_orders (orders : list Order) : M unit :=
  if gas_selected (gas_price_for_order_cancellation (arguments self)) orders then
    act (map (fun order => Kill (order_id order)) orders)
        (submit_kills (our_address self) (map order_id orders))
  else raise.

Definition cancel_all_orders : M unit :=
  orders <- our_orders ;;
  cancel_orders orders.

Definition outside_any_band_orders (orders : list Order) (bands : list Band)
    (target_price : Wad) : list Order :=
  filter (fun order => negb (existsb (fun band => includes band order target_price) bands))
         orders.

Definition outside_orders (orders : list Order) (buy_bands sell_bands : list Band)
    (target_price : Wad) : list Order :=
  outside_any_band_orders (our_buy_orders self orders) buy_bands target_price
  ++ outside_any_band_orders (our_sell_orders self orders) sell_bands target_price.

Definition excessive_sell_orders (orders : list Order) (sell_bands : list Band)
    (target_price : Wad) : list Order :=
  flat_map (fun band => excessive_orders band (our_sell_orders self orders) target_price)
           sell_bands.

Definition excessive_buy_orders (orders : list Order) (buy_bands : list Band)
    (target_price : Wad) : list Order :=
  flat_map (fun band => excessive_orders band (our_buy_orders self orders) target_price)
           buy_bands.

(** ** Top-up

    One iteration of the loop over the bands of a side: the balance left, the
    amounts taken from [our_balance] (at most one), the transactions yielded
    (at most one) and whether the iteration ended without raising. *)

Record Step := mkStep {
  balance_after : Wad;
  reserved : list Wad;
  yields : list Make;
  ok : bool
}.

Definition top_up_sell_band (orders : list Order) (target_price : Wad)
    (band : Band) (our_balance : Wad) : Step :=
  let in_band := filter (fun order => includes band order target_price)
                        (our_sell_orders self orders) in
  let total := total_amount in_band in
  if total <? min_amount band then
    let have := Z.min (avg_amount band - total) our_balance in
    if (dust_cutoff band <=? have) && (0 <? have) then
      let our_balance := our_balance - have in
      let want := wad_mul have (wad_round (avg_price band target_price) (round_places self)) in
      if 0 <? want then
        mkStep our_balance [have] [mkMake (gem self) have (sai self) want] true
      else mkStep our_balance [have] [] true
    else mkStep our_balance [] [] true
  else mkStep our_balance [] [] true.

Definition top_up_buy_band (orders : list Order) (target_price : Wad)
    (band : Band) (our_balance : Wad) : Step :=
  let in_band := filter (fun order => includes band order target_price)
                        (our_buy_orders self orders) in
  let total := total_amount in_band in
  if total <? min_amount band then
    let have := Z.min (avg_amount band - total) our_balance in
    if (dust_cutoff band <=? have) && (0 <? have) then
      let our_balance := our_balance - have in
      match wad_div have (wad_round (avg_price band target_price) (round_places self)) with
      | Some want =>
          if 0 <? want then
            mkStep our_balance [have] [mkMake (sai self) have (gem self) want] true
          else mkStep our_balance [have] [] true
      | None => mkStep our_balance [have] [] false
      end
    else mkStep our_balance [] [] true
  else mkStep our_balance [] [] true.

(** The loop: bands left to right, [our_balance] carried from one iteration
    to the next; an iteration that raises ends it. *)
Fixpoint run_bands (body : Band -> Wad -> Step) (bands : list Band)
    (our_balance : Wad) : list Step :=
  match bands with
  | [] => []
  | band :: rest =>
      let s := body band our_balance in
      s :: (if ok s then run_bands body rest (balance_after s) else [])
  end.

Definition collect (steps : list Step) : M (list Make) :=
  if forallb ok steps then ret (flat_map yields steps) else raise.

Definition top_up_sell_bands (orders : list Order) (sell_bands : list Band)
    (target_price : Wad) : M (list Make) :=
  our_balance <- call (BalanceOf (gem self))
                      (fun w => balance_of (gem self) w (our_address self)) ;;
  collect (run_bands (top_up_sell_band orders target_price) sell_bands our_balance).

Definition top_up_buy_bands (orders : list Order) (buy_bands : list Band)
    (target_price : Wad) : M (list Make) :=
  our_balance <- call (BalanceOf (sai self))
                      (fun w => balance_of (sai self) w (our_address self)) ;;
  collect (run_bands (top_up_buy_band orders target_price) buy_bands our_balance).

(** The transactions a generator yields, each given its gas price as it is
    yielded: a selection that raises stops the pass at the first yielded
    transaction.  The bands after that one would only compute, and nothing is
    sent before the whole list is built, so the run is the one of a selection
    made once the loop of the side is over. *)
Definition priced (ms : list Make) : M (list Make) :=
  if gas_selected (gas_price_for_order_placement (arguments self)) ms then ret ms
  else raise.

Definition top_up_bands (orders : list Order) (buy_bands sell_bands : list Band)
    (target_price : Wad) : M unit :=
  buys <- top_up_buy_bands orders buy_bands target_price ;;
  buys <- priced buys ;;
  sells <- top_up_sell_bands orders sell_bands target_price ;;
  sells <- priced sells ;;
  act (map Place (buys ++ sells)) (submit_makes (our_address self) (buys ++ sells)).

(** ** The reconciliation pass *)

Definition synchronize_orders : M unit :=
  balance <- call EthBalance (fun w => eth_balance w (our_address self)) ;;
  if balance <? min_eth_balance self then
    terminate "Keeper balance is below the minimum, terminating." ;;;
    cancel_all_orders
  else
    bands <- band_configuration ;;
    let buy_bands := fst bands in
    let sell_bands := snd bands in
    orders <- our_orders ;;
    price <- call GetPrice get_price ;;
    match price with
    | Some target_price =>
        cancel_orders (excessive_buy_orders orders buy_bands target_price
                       ++ excessive_sell_orders orders sell_bands target_price
                       ++ outside_orders orders buy_bands sell_bands target_price) ;;;
        orders <- our_orders ;;
        top_up_bands orders buy_bands sell_bands target_price
    | None =>
        logger_warning "Cancelling all orders as no price feed available." ;;;
        cancel_all_orders
    end.

(** The cancel-intents and the place-intents of a log. *)
Definition kills (log : list Event) : list Z :=
  flat_map (fun e => match e with Kill id => [id] | _ => [] end) log.

Definition places (log : list Event) : list Make :=
  flat_map (fun e => match e with Place m => [m] | _ => [] end) log.

End Engine.

(** ** A reference world *)

(** Modelled from the spec: the exchange, the token contracts and the feeds
    are outside the keeper.  The reference chain applies every submitted
    transaction at once: a kill by the owner removes the order and returns
    what it sells to the owner, a make with a covered positive amount opens
    an order under the next free id.  Every transaction costs its sender
    [fee] in ETH, whether it goes through or not. *)
Record Chain := mkChain {
  fee : Wad;
  ether : Address -> Wad;
  tokens : Address -> Address -> Wad;
  config_file : Config;
  feed : option Wad;
  book : list Order;
  next_id : Z
}.

Definition credit (token holder : Address) (amount : Wad)
    (t : Address -> Address -> Wad) : Address -> Address -> Wad :=
  fun token' holder' =>
    if (token' =? token) && (holder' =? holder) then t token' holder' + amount
    else t token' holder'.

Definition refund (t : Address -> Address -> Wad) (order : Order) :=
  credit (sell_which_token order) (owner order) (sell_how_much order) t.

Definition charge (sender : Address) (amount : Wad) (e : Address -> Wad)
    : Address -> Wad :=
  fun holder => if holder =? sender then e holder - amount else e holder.

Definition kill_one (sender : Address) (c : Chain) (id : Z) : Chain :=
  let hit := fun order => (order_id order =? id) && (owner order =? sender) in
  mkChain (fee c) (charge sender (fee c) (ether c))
          (fold_left refund (filter hit (book c)) (tokens c))
          (config_file c) (feed c)
          (filter (fun order => negb (hit order)) (book c))
          (next_id c).

Definition placed_order (sender : Address) (id : Z) (m : Make) : Order :=
  mkOrder id sender (have_token m) (have_amount m) (want_token m) (want_amount m).

Definition make_one (sender : Address) (c : Chain) (m : Make) : Chain :=
  if (0 <? have_amount m) && (0 <? want_amount m)
     && (have_amount m <=? tokens c (have_token m) sender) then
    mkChain (fee c) (charge sender (fee c) (ether c))
            (credit (have_token m) sender (- have_amount m) (tokens c))
            (config_file c) (feed c)
            (book c ++ [placed_order sender (next_id c) m])
            (next_id c + 1)
  else
    mkChain (fee c) (charge sender (fee c) (ether c)) (tokens c)
            (config_file c) (feed c) (book c) (next_id c).

#[export] Instance chain_venue : Venue Chain := {
  eth_balance := ether;
  get_config := config_file;
  get_orders := book;
  get_price := feed;
  balance_of := fun token c holder => tokens c token holder;
  submit_kills := fun sender ids c => fold_left (kill_one sender) ids c;
  submit_makes := fun sender ms c => fold_left (make_one sender) ms c
}.

(** The orders left by a batch of kills of their owner, and the orders a
    batch of makes opens. *)
Definition survivors (ids : list Z) (orders : list Order) : list Order :=
  filter (fun order => negb (existsb (Z.eqb (order_id order)) ids)) orders.

Fixpoint open_orders (sender : Address) (id : Z) (ms : list Make) : list Order :=
  match ms with
  | [] => []
  | m :: rest => placed_order sender id m :: open_orders sender (id + 1) rest
  end.

Definition sells_token (token : Address) (m : Make) : Prop :=
  have_token m = token /\ 0 < have_amount m /\ 0 < want_amount m.

(** Modelled from the spec: the [Wad] type of pymaker is imported by the
    keeper.  Prices are rounded to a number of decimal places, the nearest
    multiple of 10^(18 - places), ties to the even one; products and
    quotients are cut towards zero. *)

Definition WAD : Z := 10 ^ 18.

Definition round_half_even (w unit : Z) : Z :=
  let q := w / unit in
  let r := w mod unit in
  if 2 * r <? unit then q * unit
  else if unit <? 2 * r then (q + 1) * unit
  else if Z.even q then q * unit else (q + 1) * unit.

#[export] Instance wad_fixed_point : WadOps := {
  wad_mul := fun a b => Z.quot (a * b) WAD;
  wad_div := fun a b => if b =? 0 then None else Some (Z.quot (a * WAD) b);
  wad_round := fun w places =>
    if 18 <=? places then w else round_half_even w (10 ^ (18 - places))
}.

(** Modelled from the spec: the methods of [keeper.band].  A sell band spans
    the prices from [p * (1 + min_margin)] to [p * (1 + max_margin)], a buy
    band those from [p * (1 - max_margin)] to [p * (1 - min_margin)], ends
    included; the price of an order is the quote amount per base amount, the
    quotient top-up uses when it prices a new order; a band whose orders
    exceed [max_amount] gives up all of them. *)

Definition apply_margin (s : Side) (price : Wad) (margin : Q) : Q :=
  match s with
  | Sell => inject_Z price * (1 + margin)
  | Buy => inject_Z price * (1 - margin)
  end.

Definition order_price (s : Side) (order : Order) : Q :=
  match s with
  | Sell => inject_Z (buy_how_much order * WAD) / inject_Z (sell_how_much order)
  | Buy => inject_Z (sell_how_much order * WAD) / inject_Z (buy_how_much order)
  end.

Definition band_includes (band : Band) (order : Order) (target_price : Wad) : bool :=
  let price := order_price (side band) order in
  let at_min := apply_margin (side band) target_price (min_margin band) in
  let at_max := apply_margin (side band) target_price (max_margin band) in
  match side band with
  | Sell => Qle_bool at_min price && Qle_bool price at_max
  | Buy => Qle_bool at_max price && Qle_bool price at_min
  end.

Definition band_excessive_orders (band : Band) (orders : list Order)
    (target_price : Wad) : list Order :=
  let in_band := filter (fun order => band_includes band order target_price) orders in
  if max_amount band <? total_amount in_band then in_band else [].

Definition band_avg_price (band : Band) (target_price : Wad) : Wad :=
  Qfloor (apply_margin (side band) target_price (avg_margin band)).

#[export] Instance spec_bands : BandMethods := {
  includes := band_includes;
  excessive_orders := band_excessive_orders;
  avg_price := band_avg_price
}.

(** ** Sample data *)

Definition SAI : Address := 1.
Definition WETH : Address := 2.
Definition MKR : Address := 3.
Definition KEEPER : Address := 100.

Definition keeper0 : Keeper := mkKeeper KEEPER SAI WETH 0 2 default_gas_arguments.

Definition wad (n : Z) : Wad := n * WAD.

Definition funds (sai_amount weth_amount : Wad) : Address -> Address -> Wad :=
  fun token holder =>
    if holder =? KEEPER then
      if token =? SAI then sai_amount else if token =? WETH then weth_amount else 0
    else 0.

Definition mkr_order : Order := mkOrder 7 KEEPER MKR (wad 10) SAI (wad 3000).

Definition overlapping_buy : list BandSpec :=
  [ mkBandSpec (1 # 100) (2 # 100) (3 # 100) (wad 50) (wad 100) (wad 150) (wad 5);
    mkBandSpec (2 # 100) (3 # 100) (4 # 100) (wad 50) (wad 100) (wad 150) (wad 5) ].

Definition one_sell : list BandSpec :=
  [ mkBandSpec (1 # 100) (2 # 100) (3 # 100) (wad 5) (wad 10) (wad 15) (wad 1) ].

Definition chain_overlap : Chain :=
  mkChain 21000 (fun _ => wad 1) (funds (wad 200) (wad 20))
          (mkConfig overlapping_buy one_sell) (Some (wad 300))
          [mkOrder 1 KEEPER SAI (wad 100) WETH (wad 1); mkr_order] 8.

Definition keeper_low : Keeper :=
  mkKeeper KEEPER SAI WETH (wad 2) 2 default_gas_arguments.

Definition chain_no_price : Chain :=
  mkChain 21000 (fun _ => wad 1) (funds (wad 200) (wad 20))
          (mkConfig [] one_sell) None
          [mkOrder 1 KEEPER SAI (wad 100) WETH (wad 1); mkr_order] 8.

Definition sell_band0 : Band :=
  SellBand (mkBandSpec (1 # 100) (2 # 100) (3 # 100) (wad 5) (wad 10) (wad 15) (wad 1)).

(** A sell band 0.1 % to 0.3 % above a price of 1.0: its average price 1.002
    is rounded to 1.00, below the band. *)
Definition thin_sell : BandSpec :=
  mkBandSpec (1 # 1000) (2 # 1000) (3 # 1000) (wad 50) (wad 100) (wad 150) (wad 5).

Definition chain_thin : Chain :=
  mkChain 21000 (fun _ => wad 1) (funds 0 (wad 200))
          (mkConfig [] [thin_sell]) (Some (wad 1)) [] 1.

(** A sell band 1 % to 3 % above a price of 300, and an order of the keeper
    above that band. *)
Definition chain_wide : Chain :=
  mkChain 21000 (fun _ => wad 1) (funds (wad 200) (wad 20))
          (mkConfig [] one_sell) (Some (wad 300))
          [mkOrder 1 KEEPER WETH (wad 5) SAI (wad 2000)] 2.

(** ** Vocabulary of the properties *)

Definition sum (l : list Z) : Z := fold_right Z.add 0 l.

Fixpoint non_increasing (l : list Z) : Prop :=
  match l with
  | x :: (y :: _) as rest => y <= x /\ non_increasing rest
  | _ => True
  end.

(** Every order of the list is a buy order or a sell order, and not both. *)
Definition classifier_partitions (self : Keeper) (orders : list Order) : Prop :=
  forall order, In order orders ->
    (In order (our_buy_orders self orders) /\ ~ In order (our_sell_orders self orders))
    \/ (In order (our_sell_orders self orders) /\ ~ In order (our_buy_orders self orders)).

(** No call of the log asks the keeper to terminate. *)
Definition never_terminates (log : list Event) : Prop :=
  forall message, ~ In (Terminate message) log.

Definition overlap_message : string :=
  "Bands in the config file overlap. Terminating the keeper.".

Definition low_balance_message : string :=
  "Keeper balance is below the minimum, terminating.".

Definition no_price_message : string :=
  "Cancelling all orders as no price feed available.".

Section Runs.
Context {World : Type} {venue : Venue World}.

(** The parts of a run. *)
Definition result_of {A : Type} (run : option A * World * list Event) : option A :=
  fst (fst run).
Definition world_of {A : Type} (run : option A * World * list Event) : World :=
  snd (fst run).
Definition log_of {A : Type} (run : option A * World * list Event) : list Event :=
  snd run.

(** The open orders of the keeper, as [our_orders] finds them. *)
Definition own_orders (self : Keeper) (w : World) : list Order :=
  filter (fun order => owner order =? our_address self) (get_orders w).

End Runs.

Section TopUpVocabulary.
Context {band_methods : BandMethods} {wad_ops : WadOps}.
Variable self : Keeper.

(** The two top-up passes, by side. *)
Definition side_orders (sd : Side) (orders : list Order) : list Order :=
  match sd with
  | Buy => our_buy_orders self orders
  | Sell => our_sell_orders self orders
  end.

Definition top_up_band (sd : Side) (orders : list Order) (target_price : Wad)
    : Band -> Wad -> Step :=
  match sd with
  | Buy => top_up_buy_band self orders target_price
  | Sell => top_up_sell_band self orders target_price
  end.

(** Total size of the orders of a side that a band includes. *)
Definition band_total (sd : Side) (orders : list Order) (target_price : Wad)
    (band : Band) : Wad :=
  total_amount (filter (fun order => includes band order target_price)
                       (side_orders sd orders)).

(** [our_balance] before the first band and after each band of a pass. *)
Definition running_balances (body : Band -> Wad -> Step) (bands : list Band)
    (our_balance : Wad) : list Wad :=
  our_balance :: map balance_after (run_bands body bands our_balance).

(** What an iteration sells in the orders it yields. *)
Definition placed (s : Step) : Wad := sum (map have_amount (yields s)).

(** The token a side sells and the token it buys. *)
Definition have_token_of (sd : Side) : Address :=
  match sd with Buy => sai self | Sell => gem self end.

Definition want_token_of (sd : Side) : Address :=
  match sd with Buy => gem self | Sell => sai self end.

End TopUpVocabulary.

Section PassVocabulary.
Context {World : Type} {venue : Venue World}.
Context {band_methods : BandMethods} {wad_ops : WadOps}.
Variable self : Keeper.

(** The bands [band_configuration] hands to the pass. *)
Definition configured_bands (w : World) (sd : Side) : list Band :=
  let buy_bands := map BuyBand (buyBands (get_config w)) in
  let sell_bands := map SellBand (sellBands (get_config w)) in
  if bands_overlap buy_bands || bands_overlap sell_bands then []
  else match sd with Buy => buy_bands | Sell => sell_bands end.

Definition cancel_events (orders : list Order) : list Event :=
  map (fun order => Kill (order_id order)) orders.

(** The orders a pass with a price cancels, and the world after that. *)
Definition cancel_intents (w : World) (target_price : Wad) : list Order :=
  excessive_buy_orders self (own_orders self w) (configured_bands w Buy) target_price
  ++ excessive_sell_orders self (own_orders self w) (configured_bands w Sell) target_price
  ++ outside_orders self (own_orders self w) (configured_bands w Buy)
       (configured_bands w Sell) target_price.

Definition after_cancels (w : World) (target_price : Wad) : World :=
  submit_kills (our_address self) (map order_id (cancel_intents w target_price)) w.

(** The iterations of the top-up pass of a side, run after the cancels. *)
Definition top_up_steps (w : World) (target_price : Wad) (sd : Side) : list Step :=
  let w1 := after_cancels w target_price in
  run_bands (top_up_band self sd (own_orders self w1) target_price)
            (configured_bands w sd)
            (balance_of (have_token_of self sd) w1 (our_address self)).

(** Every order the top-up pass of a side yields is included, at the price of
    the pass, by the band it was yielded for and by no other band of the
    side. *)
Definition placed_in_own_band (w : World) (target_price : Wad) (sd : Side) : Prop :=
  forall (i j : nat) (s : Step) (m : Make) (band : Band) (id : Z),
    nth_error (top_up_steps w target_price sd) i = Some s ->
    In m (yields s) ->
    nth_error (configured_bands w sd) j = Some band ->
    includes band (placed_order (our_address self) id m) target_price = Nat.eqb i j.

(** A band whose orders total more than [max_amount] gives up all of them,
    any other band none. *)
Definition excessive_all_or_nothing : Prop :=
  forall (band : Band) (orders : list Order) (target_price : Wad),
    excessive_orders band orders target_price =
    let in_band := filter (fun order => includes band order target_price) orders in
    if max_amount band <? total_amount in_band then in_band else [].

(** A pass run right after a pass: it is empty when the first pass returned
    and the second cancels and places nothing. *)
Definition second_pass (w : World) : option unit * World * list Event :=
  synchronize_orders self (world_of (synchronize_orders self w)).

Definition second_pass_empty (w : World) : Prop :=
  result_of (synchronize_orders self w) = Some tt ->
  kills (log_of (second_pass w)) = [] /\ places (log_of (second_pass w)) = [].

End PassVocabulary.

(** ** Token balances *)

Section Reports.
Context {World : Type} {venue : Venue World}.
Variable self : Keeper.

(** The figures [print_token_balances] logs for a token. *)
Record TokenBalance := mkTokenBalance {
  balance_in_account : Wad;
  balance_in_our_sell_orders : Wad;
  total_balance : Wad
}.

Definition token_balance (w : World) (token : Address) : TokenBalance :=
  let our_sell_orders := filter (fun o => sell_which_token o =? token) (own_orders self w) in
  let in_our_sell_orders := fold_left Z.add (map sell_how_much our_sell_orders) 0 in
  let in_account := balance_of token w (our_address self) in
  mkTokenBalance in_account in_our_sell_orders (in_our_sell_orders + in_account).

Definition print_token_balances (w : World) : list TokenBalance :=
  map (token_balance w) [sai self; gem self].

End Reports.

(** ** More vocabulary *)

(** Bands listed from the lowest margins up, none with its margins swapped,
    each ending no later than the next begins. *)
Inductive Ascending : list Band -> Prop :=
| Ascending_nil : Ascending []
| Ascending_one (band : Band) :
    (min_margin band <= max_margin band)%Q -> Ascending [band]
| Ascending_cons (band next : Band) (rest : list Band) :
    (min_margin band <= max_margin band)%Q ->
    (max_margin band <= min_margin next)%Q ->
    Ascending (next :: rest) -> Ascending (band :: next :: rest).

(** No kill follows a place. *)
Definition kills_before_places (log : list Event) : Prop :=
  forall (before after : list Event) (m : Make) (id : Z),
    log = before ++ Place m :: after -> ~ In (Kill id) after.

Section MoreTopUpVocabulary.
Context {band_methods : BandMethods}.
Variable self : Keeper.

(** What the bands of a side miss up to their [avg_amount], together. *)
Definition needs (sd : Side) (orders : list Order) (target_price : Wad)
    (bands : list Band) : Wad :=
  sum (map (fun band =>
              Z.max (avg_amount band - band_total self sd orders target_price band) 0)
           bands).

(** The orders of the keeper on the pair. *)
Definition on_pair (order : Order) : bool :=
  is_buy_order self order || is_sell_order self order.

End MoreTopUpVocabulary.

Section MorePassVocabulary.
Context {World : Type} {venue : Venue World}.
Context {band_methods : BandMethods} {wad_ops : WadOps}.
Variable self : Keeper.

(** The top-up of a pass with a price goes through: no division raises and
    every yielded order gets its gas price. *)
Definition top_up_goes_through (w : World) (target_price : Wad) : bool :=
  (forallb ok (top_up_steps self w target_price Buy)
   && can_place self (flat_map yields (top_up_steps self w target_price Buy)))
  && (forallb ok (top_up_steps self w target_price Sell)
      && can_place self (flat_map yields (top_up_steps self w target_price Sell))).

End MorePassVocabulary.

(** Band methods that give up only orders they were given. *)
Definition excessive_within {band_methods : BandMethods} : Prop :=
  forall (band : Band) (orders : list Order) (target_price : Wad) (order : Order),
    In order (excessive_orders band orders target_price) -> In order orders.

(** ** More sample data *)

(** [--cancel-gas-price 7] without [--cancel-gas-price-increase]. *)
Definition stuck_gas_arguments : GasArguments :=
  mkGasArguments (Some 0) None 120 None (Some 7) None 120 None.

Definition keeper_stuck : Keeper := mkKeeper KEEPER SAI WETH 0 2 stuck_gas_arguments.

Definition keeper_low_stuck : Keeper :=
  mkKeeper KEEPER SAI WETH (wad 2) 2 stuck_gas_arguments.

(** Two adjacent sell bands: 1 % to 3 % and 3 % to 5 %. *)
Definition adjacent_sell : list BandSpec :=
  [ mkBandSpec (1 # 100) (2 # 100) (3 # 100) (wad 5) (wad 10) (wad 15) (wad 1);
    mkBandSpec (3 # 100) (4 # 100) (5 # 100) (wad 5) (wad 10) (wad 15) (wad 1) ].

(** A buy band at a price of 0.001: its average price is rounded to 0.00,
    and the division by it raises. *)
Definition chain_raising : Chain :=
  mkChain 21000 (fun _ => wad 1) (funds (wad 200) (wad 20))
          (mkConfig [mkBandSpec (1 # 100) (2 # 100) (3 # 100)
                                (wad 50) (wad 100) (wad 150) (wad 5)] [])
          (Some (10 ^ 15))
          [mkOrder 1 KEEPER WETH (wad 5) SAI (wad 2000)] 2.

(** A keeper whose minimum ETH balance is the balance it starts with. *)
Definition keeper_edge : Keeper :=
  mkKeeper KEEPER SAI WETH (wad 1) 2 default_gas_arguments.

(** A gas price with an increase of zero; a cancellation gas price with an
    increase of two. *)
Definition fixed_gas_arguments : GasArguments :=
  mkGasArguments (Some 5) (Some 0) 120 None (Some 0) None 120 None.

Definition cancel_gas_arguments : GasArguments :=
  mkGasArguments (Some 5) (Some 0) 120 None (Some 7) (Some 2) 60 (Some 20).

(** * Properties *)

(** ** Overlap detection *)

Lemma Qlt_bool_iff (x y : Q) : Qlt_bool x y = true <-> (x < y)%Q.
Proof.
  unfold Qlt_bool. rewrite negb_true_iff. split.
  - intros H. apply Qnot_le_lt. intros Hle.
    apply Qle_bool_iff in Hle. congruence.
  - intros H. destruct (Qle_bool y x) eqn:E; [|reflexivity].
    apply Qle_bool_iff in E. exfalso. exact (Qlt_not_le _ _ H E).
Qed.

Lemma two_bands_overlap_spec (band1 band2 : Band) :
  two_bands_overlap band1 band2 = true <->
  (min_margin band1 < max_margin band2 /\ min_margin band2 < max_margin band1)%Q.
Proof.
  unfold two_bands_overlap. rewrite andb_true_iff, !Qlt_bool_iff. reflexivity.
Qed.

Lemma two_bands_overlap_sym (band1 band2 : Band) :
  two_bands_overlap band1 band2 = two_bands_overlap band2 band1.
Proof. unfold two_bands_overlap. apply andb_comm. Qed.

(** Of two overlapping bands one has a non-empty margin range, and such a
    band overlaps itself. *)
Lemma overlap_gives_self_overlap (band1 band2 : Band) :
  two_bands_overlap band1 band2 = true ->
  two_bands_overlap band1 band1 = true \/ two_bands_overlap band2 band2 = true.
Proof.
  rewrite !two_bands_overlap_spec. intros [H1 H2].
  destruct (Qlt_le_dec (min_margin band1) (max_margin band1)) as [L|L]; [left; tauto|].
  right. split; lra.
Qed.

Lemma filter_length_pos {A : Type} (p : A -> bool) (l : list A) (j : nat) (y : A) :
  nth_error l j = Some y -> p y = true -> (0 < List.length (filter p l))%nat.
Proof.
  revert j. induction l as [|a l IH]; intros [|j] Hj Hy; simpl in *; try discriminate.
  - injection Hj as ->. rewrite Hy. simpl. lia.
  - specialize (IH _ Hj Hy). destruct (p a); simpl; lia.
Qed.

Lemma filter_length_two {A : Type} (p : A -> bool) (l : list A) (i j : nat) (x y : A) :
  i <> j -> nth_error l i = Some x -> nth_error l j = Some y ->
  p x = true -> p y = true -> (1 < List.length (filter p l))%nat.
Proof.
  revert i j. induction l as [|a l IH]; intros [|i] [|j] Hne Hi Hj Hx Hy;
    simpl in *; try discriminate; try congruence.
  - injection Hi as ->. rewrite Hx. simpl.
    pose proof (filter_length_pos p l j y Hj Hy). lia.
  - injection Hj as ->. rewrite Hy. simpl.
    pose proof (filter_length_pos p l i x Hi Hx). lia.
  - assert (i <> j) by congruence.
    specialize (IH i j H Hi Hj Hx Hy). destruct (p a); simpl; lia.
Qed.

Lemma two_in_filter {A : Type} (p : A -> bool) (l : list A) :
  (1 < List.length (filter p l))%nat ->
  exists j k y z, j <> k /\ nth_error l j = Some y /\ nth_error l k = Some z
                  /\ p y = true /\ p z = true.
Proof.
  induction l as [|a l IH]; simpl; [lia|].
  destruct (p a) eqn:Ea; simpl; intros H.
  - destruct (filter p l) as [|b fl] eqn:Ef; [simpl in H; lia|].
    assert (Hb : In b (filter p l)) by (rewrite Ef; left; reflexivity).
    apply filter_In in Hb. destruct Hb as [Hin Hpb].
    apply In_nth_error in Hin. destruct Hin as [k Hk].
    exists 0%nat, (S k), a, b. repeat split; auto.
  - destruct (IH H) as (j & k & y & z & Hne & Hj & Hk & Hy & Hz).
    exists (S j), (S k), y, z. repeat split; auto.
Qed.

(** C2: [bands_overlap] answers [true] exactly when two bands at different
    places of the list overlap, although it only counts, for each band, the
    bands of the list (itself among them) that overlap it. *)
Theorem bands_overlap_complete_and_sound (bands : list Band) :
  bands_overlap bands = true <->
  exists i j band1 band2,
    i <> j /\ nth_error bands i = Some band1 /\ nth_error bands j = Some band2
    /\ (min_margin band1 < max_margin band2)%Q
    /\ (min_margin band2 < max_margin band1)%Q.
Proof.
  unfold bands_overlap. rewrite existsb_exists. split.
  - intros (band1 & Hin & Hcount). apply Nat.ltb_lt in Hcount.
    apply In_nth_error in Hin. destruct Hin as [i Hi].
    destruct (two_in_filter _ _ Hcount) as (j & k & y & z & Hne & Hj & Hk & Hy & Hz).
    destruct (Nat.eq_dec i j) as [->|Hij].
    + exists j, k, band1, z. apply two_bands_overlap_spec in Hz. tauto.
    + exists i, j, band1, y. apply two_bands_overlap_spec in Hy. tauto.
  - intros (i & j & band1 & band2 & Hne & Hi & Hj & H1 & H2).
    assert (H12 : two_bands_overlap band1 band2 = true)
      by (apply two_bands_overlap_spec; tauto).
    destruct (overlap_gives_self_overlap _ _ H12) as [Hself|Hself].
    + exists band1. split; [eapply nth_error_In; eauto|].
      apply Nat.ltb_lt. eapply filter_length_two with (i := i) (j := j); eauto.
    + exists band2. split; [eapply nth_error_In; eauto|].
      apply Nat.ltb_lt.
      eapply filter_length_two with (i := j) (j := i) (x := band2) (y := band1); eauto.
      rewrite two_bands_overlap_sym. exact H12.
Qed.

(** ** Configuration *)

Section ConfigurationFacts.
Context {World : Type} {venue : Venue World}.

(** What [band_configuration] does, case by case. *)
Lemma band_configuration_run (w : World) :
  band_configuration w =
  let buy_bands := map BuyBand (buyBands (get_config w)) in
  let sell_bands := map SellBand (sellBands (get_config w)) in
  if bands_overlap buy_bands || bands_overlap sell_bands
  then (Some ([], []), w, [GetConfig; Terminate overlap_message])
  else (Some (buy_bands, sell_bands), w, [GetConfig]).
Proof.
  unfold band_configuration, bind, call, terminate, act, ret. simpl.
  destruct (bands_overlap _ || bands_overlap _); reflexivity.
Qed.

(** C3: when the buy bands overlap, or the sell bands do, the configuration
    handed to the pass has no band on either side. *)
Theorem band_configuration_fails_closed (w : World) :
  bands_overlap (map BuyBand (buyBands (get_config w))) = true
  \/ bands_overlap (map SellBand (sellBands (get_config w))) = true ->
  result_of (band_configuration w) = Some ([], []).
Proof.
  intros H. rewrite band_configuration_run. cbv zeta.
  apply orb_true_iff in H. rewrite H. reflexivity.
Qed.

(** C9, as the keeper has it: overlapping bands empty both sides and ask the
    keeper to terminate; a configuration without overlap is handed over as
    it is and asks for nothing. *)
Theorem band_configuration_terminates_on_overlap (w : World) :
  let buy_bands := map BuyBand (buyBands (get_config w)) in
  let sell_bands := map SellBand (sellBands (get_config w)) in
  let log := log_of (band_configuration w) in
  (bands_overlap buy_bands || bands_overlap sell_bands = true ->
     result_of (band_configuration w) = Some ([], [])
     /\ In (Terminate overlap_message) log)
  /\ (bands_overlap buy_bands || bands_overlap sell_bands = false ->
     result_of (band_configuration w) = Some (buy_bands, sell_bands)
     /\ never_terminates log).
Proof.
  cbv zeta. rewrite band_configuration_run. cbv zeta. split; intros H; rewrite H; simpl.
  - split; auto.
  - split; [reflexivity|]. intros message [E|[]]. discriminate.
Qed.

End ConfigurationFacts.

Lemma band_configuration_fails_closed_witness :
  bands_overlap (map BuyBand (buyBands (get_config chain_overlap))) = true
  /\ result_of (band_configuration chain_overlap) = Some ([], []).
Proof.
  split; [vm_compute; reflexivity|].
  apply (band_configuration_fails_closed chain_overlap).
  left. vm_compute. reflexivity.
Defined.

Lemma band_configuration_terminates_on_overlap_witness :
  result_of (band_configuration chain_overlap) = Some ([], [])
  /\ In (Terminate overlap_message) (log_of (band_configuration chain_overlap)).
Proof.
  apply (proj1 (band_configuration_terminates_on_overlap chain_overlap)).
  vm_compute. reflexivity.
Defined.

(** C9, as stated, fails: on an overlapping configuration the keeper is asked
    to terminate. *)
Lemma overlap_is_fatal :
  bands_overlap (map BuyBand (buyBands (get_config chain_overlap))) = true
  /\ ~ never_terminates (log_of (band_configuration chain_overlap)).
Proof.
  split; [vm_compute; reflexivity|].
  intros H. apply (H overlap_message). vm_compute. right. left. reflexivity.
Qed.

(** ** Classification *)

(** C8, as stated, fails: an order of the keeper on another pair is neither a
    buy order nor a sell order. *)
Lemma classifier_is_no_partition : ~ classifier_partitions keeper0 [mkr_order].
Proof.
  intros H. destruct (H mkr_order (or_introl eq_refl)) as [[Hin _]|[Hin _]];
    vm_compute in Hin; exact Hin.
Qed.

(** C8, as the keeper has it: buy orders are the orders that sell SAI for the
    other token, sell orders those that sell the other token for SAI, and no
    order is both. *)
Theorem classifier_sides_are_disjoint (self : Keeper) (orders : list Order)
    (order : Order) :
  sai self <> gem self ->
  In order orders ->
  (In order (our_buy_orders self orders) <->
     buy_which_token order = gem self /\ sell_which_token order = sai self)
  /\ (In order (our_sell_orders self orders) <->
     buy_which_token order = sai self /\ sell_which_token order = gem self)
  /\ ~ (In order (our_buy_orders self orders) /\ In order (our_sell_orders self orders)).
Proof.
  intros Hne Hin. unfold our_buy_orders, our_sell_orders.
  rewrite !filter_In. unfold is_buy_order, is_sell_order.
  rewrite !andb_true_iff, !Z.eqb_eq. intuition congruence.
Qed.

Lemma classifier_sides_are_disjoint_witness :
  sai keeper0 <> gem keeper0
  /\ In mkr_order [mkr_order]
  /\ ~ (In mkr_order (our_buy_orders keeper0 [mkr_order])
        /\ In mkr_order (our_sell_orders keeper0 [mkr_order])).
Proof.
  assert (Hne : sai keeper0 <> gem keeper0) by (vm_compute; discriminate).
  assert (Hin : In mkr_order [mkr_order]) by (left; reflexivity).
  split; [exact Hne|]. split; [exact Hin|].
  exact (proj2 (proj2 (classifier_sides_are_disjoint keeper0 [mkr_order] mkr_order
                         Hne Hin))).
Defined.

(** ** The guards of the pass *)

Section GuardFacts.
Context {World : Type} {venue : Venue World}.
Context {band_methods : BandMethods} {wad_ops : WadOps}.
Variable self : Keeper.

Lemma kills_of_cancels (orders : list Order) :
  kills (map (fun order => Kill (order_id order)) orders) = map order_id orders.
Proof.
  induction orders as [|o l IH]; [reflexivity|].
  change (order_id o :: kills (map (fun order => Kill (order_id order)) l)
          = order_id o :: map order_id l).
  now rewrite IH.
Qed.

Lemma places_of_cancels (orders : list Order) :
  places (map (fun order => Kill (order_id order)) orders) = [].
Proof. induction orders as [|o l IH]; simpl; auto. Qed.

Lemma no_read_in_cancels (e : Event) (orders : list Order) :
  (forall id, e <> Kill id) ->
  ~ In e (map (fun order => Kill (order_id order)) orders).
Proof.
  intros He Hin. apply in_map_iff in Hin. destruct Hin as (o & Ho & _).
  exact (He _ (eq_sym Ho)).
Qed.

Lemma our_orders_run (w : World) :
  our_orders self w = (Some (own_orders self w), w, [GetOrders]).
Proof. reflexivity. Qed.

Lemma cancel_all_orders_run (w : World) :
  can_cancel self (own_orders self w) = true ->
  cancel_all_orders self w =
  (Some tt,
   submit_kills (our_address self) (map order_id (own_orders self w)) w,
   GetOrders :: map (fun order => Kill (order_id order)) (own_orders self w)).
Proof.
  intros Hc. unfold cancel_all_orders, bind. rewrite our_orders_run.
  unfold cancel_orders. unfold can_cancel in Hc. rewrite Hc. reflexivity.
Qed.

Lemma cancel_all_orders_raises (w : World) :
  can_cancel self (own_orders self w) = false ->
  cancel_all_orders self w = (None, w, [GetOrders]).
Proof.
  intros Hc. unfold cancel_all_orders, bind. rewrite our_orders_run.
  unfold cancel_orders. unfold can_cancel in Hc. rewrite Hc. reflexivity.
Qed.

(** A selection that raises stops exactly the batches that have an order. *)
Lemma can_cancel_false (orders : list Order) :
  can_cancel self orders = false <->
  orders <> [] /\ gas_price_for_order_cancellation (arguments self) = None.
Proof.
  unfold can_cancel, gas_selected.
  destruct orders as [|o l], (gas_price_for_order_cancellation (arguments self));
    split; try discriminate; try (intros [H1 H2]; congruence); intros _; split;
    congruence.
Qed.

(** The whole run of a pass that starts below the minimum ETH balance. *)
Lemma synchronize_orders_low_balance (w : World) :
  eth_balance w (our_address self) < min_eth_balance self ->
  can_cancel self (own_orders self w) = true ->
  synchronize_orders self w =
  (Some tt,
   submit_kills (our_address self) (map order_id (own_orders self w)) w,
   EthBalance :: Terminate low_balance_message :: GetOrders
     :: map (fun order => Kill (order_id order)) (own_orders self w)).
Proof.
  intros H Hc. apply Z.ltb_lt in H.
  unfold synchronize_orders, bind, call at 1. rewrite H.
  unfold terminate, act at 1. rewrite (cancel_all_orders_run w Hc). reflexivity.
Qed.

Lemma synchronize_orders_low_balance_raises (w : World) :
  eth_balance w (our_address self) < min_eth_balance self ->
  can_cancel self (own_orders self w) = false ->
  synchronize_orders self w =
  (None, w, [EthBalance; Terminate low_balance_message; GetOrders]).
Proof.
  intros H Hc. apply Z.ltb_lt in H.
  unfold synchronize_orders, bind, call at 1. rewrite H.
  unfold terminate, act at 1. rewrite (cancel_all_orders_raises w Hc). reflexivity.
Qed.

Lemma low_eth_balance_guard (w : World) :
  eth_balance w (our_address self) < min_eth_balance self ->
  can_cancel self (own_orders self w) = true ->
  let run := synchronize_orders self w in
  result_of run = Some tt
  /\ kills (log_of run) = map order_id (own_orders self w)
  /\ world_of run = submit_kills (our_address self) (map order_id (own_orders self w)) w
  /\ places (log_of run) = []
  /\ (forall e, (forall id, e <> Kill id) -> e <> EthBalance -> e <> GetOrders ->
                e <> Terminate low_balance_message -> ~ In e (log_of run)).
Proof.
  intros H Hc. cbv zeta. rewrite (synchronize_orders_low_balance w H Hc).
  unfold result_of, world_of, log_of. simpl fst. simpl snd.
  repeat split.
  - change (kills (map (fun order => Kill (order_id order)) (own_orders self w))
            = map order_id (own_orders self w)).
    apply kills_of_cancels.
  - change (places (map (fun order => Kill (order_id order)) (own_orders self w)) = []).
    apply places_of_cancels.
  - intros e Hk H1 H2 H3 [E|[E|[E|Hin]]]; try congruence.
    revert Hin. apply no_read_in_cancels. exact Hk.
Qed.

(** X21: when the gas price of its cancellations can be selected (or the
    keeper has no open order), a pass below the minimum ETH balance asks the
    keeper to terminate, cancels every open order of the keeper and returns;
    it reads neither the band configuration nor the price nor a token
    balance and places nothing. *)
Theorem low_eth_balance_short_circuits (w : World) :
  eth_balance w (our_address self) < min_eth_balance self ->
  can_cancel self (own_orders self w) = true ->
  let run := synchronize_orders self w in
  result_of run = Some tt
  /\ In (Terminate low_balance_message) (log_of run)
  /\ kills (log_of run) = map order_id (own_orders self w)
  /\ world_of run = submit_kills (our_address self) (map order_id (own_orders self w)) w
  /\ ~ In GetConfig (log_of run)
  /\ ~ In GetPrice (log_of run)
  /\ (forall token, ~ In (BalanceOf token) (log_of run))
  /\ places (log_of run) = [].
Proof.
  intros H Hc. destruct (low_eth_balance_guard w H Hc) as (Hr & Hk & Hw & Hp & Hno).
  cbv zeta. repeat split; auto.
  - rewrite (synchronize_orders_low_balance w H Hc). right. left. reflexivity.
  - apply Hno; discriminate.
  - apply Hno; discriminate.
  - intros token. apply Hno; discriminate.
Qed.

(** C10, where the keeper misses it: below the minimum ETH balance, with an
    open order of the keeper and a gas price selection that raises
    ([--cancel-gas-price] set without [--cancel-gas-price-increase]), the
    pass asks the keeper to terminate and then raises: no order is
    cancelled. *)
Theorem low_eth_balance_pass_raises (w : World) :
  eth_balance w (our_address self) < min_eth_balance self ->
  own_orders self w <> [] ->
  gas_price_for_order_cancellation (arguments self) = None ->
  let run := synchronize_orders self w in
  result_of run = None
  /\ In (Terminate low_balance_message) (log_of run)
  /\ kills (log_of run) = []
  /\ world_of run = w.
Proof.
  intros H Hown Hgas. cbv zeta.
  rewrite (synchronize_orders_low_balance_raises w H
             (proj2 (can_cancel_false _) (conj Hown Hgas))).
  unfold result_of, world_of, log_of. simpl. auto.
Qed.

(** The whole run of a pass that gets no price. *)
Lemma synchronize_orders_no_price (w : World) :
  min_eth_balance self <= eth_balance w (our_address self) ->
  get_price w = None ->
  can_cancel self (own_orders self w) = true ->
  synchronize_orders self w =
  (Some tt,
   submit_kills (our_address self) (map order_id (own_orders self w)) w,
   EthBalance :: log_of (band_configuration w)
     ++ GetOrders :: GetPrice :: Warning no_price_message :: GetOrders
     :: map (fun order => Kill (order_id order)) (own_orders self w)).
Proof.
  intros Heth Hprice Hc. apply Z.ltb_ge in Heth.
  unfold synchronize_orders, bind, call at 1. rewrite Heth.
  rewrite band_configuration_run. cbv zeta.
  destruct (bands_overlap _ || bands_overlap _);
    unfold our_orders at 1, bind, call, ret; rewrite Hprice;
    unfold logger_warning, act at 1; rewrite (cancel_all_orders_run w Hc);
    reflexivity.
Qed.

Lemma synchronize_orders_no_price_raises (w : World) :
  min_eth_balance self <= eth_balance w (our_address self) ->
  get_price w = None ->
  can_cancel self (own_orders self w) = false ->
  synchronize_orders self w =
  (None, w,
   EthBalance :: log_of (band_configuration w)
     ++ [GetOrders; GetPrice; Warning no_price_message; GetOrders]).
Proof.
  intros Heth Hprice Hc. apply Z.ltb_ge in Heth.
  unfold synchronize_orders, bind, call at 1. rewrite Heth.
  rewrite band_configuration_run. cbv zeta.
  destruct (bands_overlap _ || bands_overlap _);
    unfold our_orders at 1, bind, call, ret; rewrite Hprice;
    unfold logger_warning, act at 1; rewrite (cancel_all_orders_raises w Hc);
    reflexivity.
Qed.

Lemma kills_app (l1 l2 : list Event) : kills (l1 ++ l2) = kills l1 ++ kills l2.
Proof. apply flat_map_app. Qed.

Lemma places_app (l1 l2 : list Event) : places (l1 ++ l2) = places l1 ++ places l2.
Proof. apply flat_map_app. Qed.

Lemma band_configuration_log (w : World) :
  log_of (band_configuration w) = [GetConfig]
  \/ log_of (band_configuration w) = [GetConfig; Terminate overlap_message].
Proof.
  rewrite band_configuration_run. cbv zeta.
  destruct (bands_overlap _ || bands_overlap _); auto.
Qed.

(** X22: when the gas price of its cancellations can be selected (or the
    keeper has no open order), a pass that gets no price cancels every open
    order of the keeper and places nothing; it reads no token balance, so no
    band is topped up. *)
Theorem no_price_cancels_all (w : World) :
  get_price w = None ->
  can_cancel self (own_orders self w) = true ->
  let run := synchronize_orders self w in
  result_of run = Some tt
  /\ kills (log_of run) = map order_id (own_orders self w)
  /\ world_of run = submit_kills (our_address self) (map order_id (own_orders self w)) w
  /\ places (log_of run) = []
  /\ (forall token, ~ In (BalanceOf token) (log_of run)).
Proof.
  intros Hprice Hc. cbv zeta.
  destruct (Z_lt_le_dec (eth_balance w (our_address self)) (min_eth_balance self))
    as [Hlow|Hok].
  - destruct (low_eth_balance_guard w Hlow Hc) as (Hr & Hk & Hw & Hp & Hno).
    repeat split; auto. intros token. apply Hno; discriminate.
  - rewrite (synchronize_orders_no_price w Hok Hprice Hc).
    unfold result_of, world_of. simpl fst. simpl snd.
    set (cancels := map (fun order => Kill (order_id order)) (own_orders self w)).
    destruct (band_configuration_log w) as [E|E]; rewrite E;
      unfold log_of; simpl snd; simpl app.
    + repeat split.
      * apply kills_of_cancels.
      * apply places_of_cancels.
      * intros token [H|[H|[H|[H|[H|[H|Hin]]]]]]; try discriminate.
        revert Hin. apply no_read_in_cancels. discriminate.
    + repeat split.
      * apply kills_of_cancels.
      * apply places_of_cancels.
      * intros token [H|[H|[H|[H|[H|[H|[H|Hin]]]]]]]; try discriminate.
        revert Hin. apply no_read_in_cancels. discriminate.
Qed.

(** C4, where the keeper misses it: on a tick without a price, with an open
    order of the keeper and a gas price selection that raises
    ([--cancel-gas-price] set without [--cancel-gas-price-increase]), the
    pass raises: no order is cancelled, none is placed. *)
Theorem no_price_pass_raises (w : World) :
  get_price w = None ->
  own_orders self w <> [] ->
  gas_price_for_order_cancellation (arguments self) = None ->
  let run := synchronize_orders self w in
  result_of run = None
  /\ kills (log_of run) = []
  /\ places (log_of run) = []
  /\ world_of run = w.
Proof.
  intros Hprice Hown Hgas. cbv zeta.
  pose proof (proj2 (can_cancel_false _) (conj Hown Hgas)) as Hc.
  destruct (Z_lt_le_dec (eth_balance w (our_address self)) (min_eth_balance self))
    as [Hlow|Hok].
  - rewrite (synchronize_orders_low_balance_raises w Hlow Hc).
    unfold result_of, world_of, log_of. simpl. auto.
  - rewrite (synchronize_orders_no_price_raises w Hok Hprice Hc).
    unfold result_of, world_of. simpl fst. simpl snd.
    destruct (band_configuration_log w) as [E|E]; rewrite E;
      unfold log_of; simpl; auto.
Qed.

End GuardFacts.

(** ** Top-up *)

Section TopUpFacts.
Context {band_methods : BandMethods} {wad_ops : WadOps}.
Variable self : Keeper.
Variable orders : list Order.
Variable target_price : Wad.

(** One iteration, by cases on its three tests. *)
Lemma top_up_band_cases (sd : Side) (band : Band) (our_balance : Wad) :
  let total := band_total self sd orders target_price band in
  let have := Z.min (avg_amount band - total) our_balance in
  let s := top_up_band self sd orders target_price band our_balance in
  (total < min_amount band /\ dust_cutoff band <= have /\ 0 < have
   /\ balance_after s = our_balance - have /\ reserved s = [have]
   /\ (yields s = [] \/ exists m, yields s = [m] /\ have_amount m = have))
  \/ ((min_amount band <= total \/ have < dust_cutoff band \/ have <= 0)
      /\ s = mkStep our_balance [] [] true).
Proof.
  cbv zeta. unfold band_total.
  destruct sd; simpl side_orders; simpl top_up_band;
    unfold top_up_buy_band, top_up_sell_band;
    set (total := total_amount _);
    (destruct (total <? min_amount band) eqn:Emin;
     [apply Z.ltb_lt in Emin | apply Z.ltb_ge in Emin; right; auto]);
    set (have := Z.min (avg_amount band - total) our_balance);
    (destruct (dust_cutoff band <=? have) eqn:Edust;
     [apply Z.leb_le in Edust | apply Z.leb_gt in Edust; right; simpl; auto]);
    (destruct (0 <? have) eqn:Epos;
     [apply Z.ltb_lt in Epos | apply Z.ltb_ge in Epos; right; simpl; auto]);
    left; simpl andb; cbv iota.
  - destruct (wad_div _ _) as [want|]; [destruct (0 <? want)|]; simpl;
      repeat split; auto; right; eexists; split; reflexivity.
  - destruct (0 <? wad_mul _ _); simpl;
      repeat split; auto; right; eexists; split; reflexivity.
Qed.

(** An iteration never draws more than the balance it is given. *)
Lemma top_up_band_conserves (sd : Side) (band : Band) (our_balance : Wad) :
  0 <= our_balance ->
  let s := top_up_band self sd orders target_price band our_balance in
  0 <= balance_after s <= our_balance
  /\ sum (reserved s) = our_balance - balance_after s
  /\ sum (map have_amount (yields s)) <= sum (reserved s).
Proof.
  intros Hb. cbv zeta.
  destruct (top_up_band_cases sd band our_balance)
    as [(Hmin & Hdust & Hpos & Hbal & Hres & Hy) | (_ & ->)]; cbv zeta in *.
  - rewrite Hbal, Hres. simpl sum.
    destruct Hy as [-> | (m & -> & Hm)]; simpl; lia.
  - simpl. lia.
Qed.

Lemma run_bands_conserves (sd : Side) (bands : list Band) (our_balance : Wad) :
  0 <= our_balance ->
  let body := top_up_band self sd orders target_price in
  let steps := run_bands body bands our_balance in
  sum (flat_map reserved steps) <= our_balance
  /\ sum (map have_amount (flat_map yields steps)) <= sum (flat_map reserved steps)
  /\ non_increasing (running_balances body bands our_balance)
  /\ Forall (fun b => 0 <= b) (running_balances body bands our_balance).
Proof.
  cbv zeta. unfold running_balances. revert our_balance.
  induction bands as [|band rest IH]; intros our_balance Hb.
  - simpl. repeat split; auto; lia.
  - simpl run_bands.
    destruct (top_up_band_conserves sd band our_balance Hb) as (Hrange & Hres & Hys).
    cbv zeta in *.
    set (s := top_up_band self sd orders target_price band our_balance) in *.
    clearbody s. unfold Wad in *.
    destruct (ok s).
    + destruct (IH (balance_after s) (proj1 Hrange)) as (I1 & I2 & I3 & I4).
      simpl flat_map. simpl map.
      rewrite !map_app. unfold sum in *. rewrite !fold_right_app.
      assert (Hadd : forall l a, fold_right Z.add a l = fold_right Z.add 0 l + a).
      { induction l as [|x l IHl]; intros a; simpl; [lia|]. rewrite IHl. lia. }
      rewrite (Hadd (reserved s)), (Hadd (map have_amount (yields s))).
      unfold Wad in *. repeat split; try lia; auto.
    + simpl. rewrite !app_nil_r.
      repeat split; try lia; auto.
      repeat constructor; lia.
Qed.

(** C5: in a top-up pass that starts with a non-negative balance, the amounts
    drawn from the balance add up to no more than that balance, the amounts of
    the yielded orders to no more than the amounts drawn, and the running
    balance only falls and never goes below zero. *)
Theorem top_up_conserves_balance (sd : Side) (bands : list Band) (our_balance : Wad) :
  0 <= our_balance ->
  let body := top_up_band self sd orders target_price in
  let steps := run_bands body bands our_balance in
  sum (flat_map reserved steps) <= our_balance
  /\ sum (map have_amount (flat_map yields steps)) <= our_balance
  /\ non_increasing (running_balances body bands our_balance)
  /\ Forall (fun b => 0 <= b) (running_balances body bands our_balance).
Proof.
  intros Hb. destruct (run_bands_conserves sd bands our_balance Hb) as (H1 & H2 & H3 & H4).
  cbv zeta in *. repeat split; auto; lia.
Qed.

(** The iteration of the band at place [i] runs on the balance left by the
    iterations before it. *)
Lemma run_bands_nth (body : Band -> Wad -> Step) (bands : list Band)
    (our_balance : Wad) (i : nat) (band : Band) (s : Step) :
  nth_error bands i = Some band ->
  nth_error (run_bands body bands our_balance) i = Some s ->
  s = body band (nth i (running_balances body bands our_balance) 0).
Proof.
  unfold running_balances. revert our_balance i.
  induction bands as [|b rest IH]; intros our_balance [|i] Hband Hs;
    simpl in *; try discriminate.
  - congruence.
  - destruct (ok (body b our_balance)); [|destruct i; discriminate].
    exact (IH _ _ Hband Hs).
Qed.

(** C6: a band yields an order only when the orders it includes total less
    than [min_amount], and the order then sells the smaller of what is missing
    up to [avg_amount] and of the balance left; a band at or above
    [min_amount] yields nothing. *)
Theorem top_up_trigger_and_amount (sd : Side) (bands : list Band) (our_balance : Wad)
    (i : nat) (band : Band) (s : Step) :
  let body := top_up_band self sd orders target_price in
  nth_error bands i = Some band ->
  nth_error (run_bands body bands our_balance) i = Some s ->
  let total := band_total self sd orders target_price band in
  let before := nth i (running_balances body bands our_balance) 0 in
  (forall m, In m (yields s) ->
     total < min_amount band
     /\ have_amount m = Z.min (avg_amount band - total) before)
  /\ (min_amount band <= total -> yields s = []).
Proof.
  intros body Hband Hs. cbv zeta.
  rewrite (run_bands_nth body bands our_balance i band s Hband Hs).
  set (before := nth i (running_balances body bands our_balance) 0).
  clearbody before. unfold body.
  destruct (top_up_band_cases sd band before)
    as [(Hmin & Hdust & Hpos & Hbal & Hres & Hy) | (Hskip & ->)]; cbv zeta in *.
  - split.
    + intros m Hm. destruct Hy as [Hy | (m' & Hy & Hhave)]; rewrite Hy in Hm.
      * destruct Hm.
      * destruct Hm as [<-|[]]. auto.
    + lia.
  - split; [intros m []|reflexivity].
Qed.

(** C7: when the amount computed for a band is below its [dust_cutoff], or
    not positive, the band yields no order and draws nothing from the
    balance. *)
Theorem dust_is_suppressed (sd : Side) (bands : list Band) (our_balance : Wad)
    (i : nat) (band : Band) (s : Step) :
  let body := top_up_band self sd orders target_price in
  nth_error bands i = Some band ->
  nth_error (run_bands body bands our_balance) i = Some s ->
  let total := band_total self sd orders target_price band in
  let before := nth i (running_balances body bands our_balance) 0 in
  let have := Z.min (avg_amount band - total) before in
  have < dust_cutoff band \/ have <= 0 ->
  yields s = [] /\ reserved s = [] /\ balance_after s = before /\ ok s = true.
Proof.
  intros body Hband Hs. cbv zeta.
  rewrite (run_bands_nth body bands our_balance i band s Hband Hs).
  set (before := nth i (running_balances body bands our_balance) 0).
  clearbody before. unfold body. intros Hdust.
  destruct (top_up_band_cases sd band before)
    as [(Hmin & Hd & Hpos & _) | (_ & ->)]; cbv zeta in *.
  - lia.
  - simpl. auto.
Qed.

End TopUpFacts.

(** ** A second top-up pass *)

Section SecondTopUp.
Context {band_methods : BandMethods} {wad_ops : WadOps}.
Variable self : Keeper.
Variable target_price : Wad.

Lemma sum_app (l1 l2 : list Z) : sum (l1 ++ l2) = sum l1 + sum l2.
Proof. induction l1 as [|x l IH]; simpl; [reflexivity|]. rewrite IH. lia. Qed.

(** Every yielded order sells a positive amount of the token of its side
    for a positive amount of the other token. *)
Lemma yields_shape (sd : Side) (orders : list Order) (band : Band) (our_balance : Wad)
    (m : Make) :
  In m (yields (top_up_band self sd orders target_price band our_balance)) ->
  have_token m = have_token_of self sd /\ want_token m = want_token_of self sd
  /\ 0 < have_amount m /\ 0 < want_amount m.
Proof.
  destruct sd; simpl top_up_band; unfold top_up_buy_band, top_up_sell_band;
    set (total := total_amount _);
    (destruct (total <? min_amount band); [|intros []]);
    set (have := Z.min (avg_amount band - total) our_balance);
    (destruct (dust_cutoff band <=? have); [|intros []]);
    (destruct (0 <? have) eqn:Epos; [apply Z.ltb_lt in Epos|intros []]);
    simpl andb; cbv iota.
  - destruct (wad_div _ _) as [want|]; [|intros []].
    destruct (0 <? want) eqn:Ew; [apply Z.ltb_lt in Ew|intros []].
    intros [<-|[]]. simpl. auto.
  - destruct (0 <? wad_mul _ _) eqn:Ew; [apply Z.ltb_lt in Ew|intros []].
    intros [<-|[]]. simpl. auto.
Qed.

(** An iteration depends on the orders through the total of its band, and on
    the balance through the amount it computes. *)
Lemma top_up_band_ext (sd : Side) (orders1 orders2 : list Order) (band : Band)
    (balance1 balance2 : Wad) :
  band_total self sd orders1 target_price band
  = band_total self sd orders2 target_price band ->
  Z.min (avg_amount band - band_total self sd orders1 target_price band) balance1
  = Z.min (avg_amount band - band_total self sd orders1 target_price band) balance2 ->
  let s1 := top_up_band self sd orders1 target_price band balance1 in
  let s2 := top_up_band self sd orders2 target_price band balance2 in
  yields s2 = yields s1 /\ ok s2 = ok s1
  /\ balance_after s2 - balance2 = balance_after s1 - balance1.
Proof.
  unfold band_total. intros Ht Hh. cbv zeta.
  destruct sd; simpl side_orders in *; simpl top_up_band;
    unfold top_up_buy_band, top_up_sell_band;
    rewrite <- Ht; set (total := total_amount _) in *;
    (destruct (total <? min_amount band); [|simpl; repeat split; lia]);
    rewrite <- Hh; set (have := Z.min (avg_amount band - total) balance1) in *;
    (destruct ((dust_cutoff band <=? have) && (0 <? have)); [|simpl; repeat split; lia]).
  - destruct (wad_div _ _) as [want|]; [destruct (0 <? want)|];
      simpl; repeat split; lia.
  - destruct (0 <? wad_mul _ _); simpl; repeat split; lia.
Qed.

Lemma placed_cases (sd : Side) (orders : list Order) (band : Band) (our_balance : Wad) :
  let total := band_total self sd orders target_price band in
  let have := Z.min (avg_amount band - total) our_balance in
  let s := top_up_band self sd orders target_price band our_balance in
  (yields s = [] /\ placed s = 0)
  \/ (placed s = have /\ total < min_amount band /\ 0 < have
      /\ balance_after s = our_balance - have).
Proof.
  cbv zeta. unfold placed.
  destruct (top_up_band_cases self orders target_price sd band our_balance)
    as [(Hmin & Hdust & Hpos & Hbal & Hres & [Hy | (m & Hy & Hm)]) | (_ & ->)];
    cbv zeta in *.
  - left. rewrite Hy. auto.
  - right. rewrite Hy. simpl. repeat split; auto; lia.
  - left. auto.
Qed.

Lemma step_placed_bound (sd : Side) (orders : list Order) (band : Band)
    (our_balance : Wad) :
  let s := top_up_band self sd orders target_price band our_balance in
  0 <= placed s /\ placed s + Z.max (balance_after s) 0 <= Z.max our_balance 0.
Proof.
  cbv zeta.
  pose proof (top_up_band_cases self orders target_price sd band our_balance) as Hc.
  pose proof (placed_cases sd orders band our_balance) as Hp.
  cbv zeta in Hc, Hp.
  set (s := top_up_band self sd orders target_price band our_balance) in *.
  destruct Hc as [(Hmin & Hdust & Hpos & Hbal & _) | (_ & Hs)].
  - destruct Hp as [(_ & Hp) | (Hp & _)]; unfold Wad in *; lia.
  - assert (Hp0 : placed s = 0) by (rewrite Hs; reflexivity).
    assert (Hb : balance_after s = our_balance) by (rewrite Hs; reflexivity).
    unfold Wad in *. lia.
Qed.

(** The orders of a pass sell no more than the balance it starts with. *)
Lemma run_bands_placed_bound (sd : Side) (orders : list Order) (bands : list Band)
    (our_balance : Wad) :
  let steps := run_bands (top_up_band self sd orders target_price) bands our_balance in
  0 <= sum (map placed steps) <= Z.max our_balance 0.
Proof.
  cbv zeta. revert our_balance. induction bands as [|band rest IH]; intros our_balance.
  - simpl. lia.
  - simpl run_bands.
    pose proof (step_placed_bound sd orders band our_balance) as Hs. cbv zeta in Hs.
    set (s := top_up_band self sd orders target_price band our_balance) in *.
    simpl map. simpl sum.
    destruct (ok s).
    + specialize (IH (balance_after s)). unfold Wad in *. lia.
    + simpl. unfold Wad in *. lia.
Qed.

Lemma placed_sum (steps : list Step) :
  sum (map have_amount (flat_map yields steps)) = sum (map placed steps).
Proof.
  induction steps as [|s l IH]; simpl; [reflexivity|].
  rewrite map_app, sum_app, IH. reflexivity.
Qed.

(** After a pass whose orders went into the band they were yielded for, a
    pass on the balance that is left yields nothing. *)
Lemma second_run_is_quiet (sd : Side) (orders1 orders2 : list Order)
    (bands : list Band) (our_balance : Wad) :
  let steps := run_bands (top_up_band self sd orders1 target_price) bands our_balance in
  forallb ok steps = true ->
  (forall j band s, nth_error bands j = Some band -> nth_error steps j = Some s ->
     band_total self sd orders2 target_price band
     = band_total self sd orders1 target_price band + placed s) ->
  let steps' := run_bands (top_up_band self sd orders2 target_price) bands
                          (our_balance - sum (map placed steps)) in
  flat_map yields steps' = [] /\ forallb ok steps' = true.
Proof.
  cbv zeta. revert our_balance.
  induction bands as [|band rest IH]; intros our_balance Hok Htot; [simpl; auto|].
  simpl run_bands in *.
  pose proof (Htot 0%nat band _ eq_refl eq_refl) as Ht0.
  pose proof (top_up_band_cases self orders1 target_price sd band our_balance) as Hc.
  pose proof (placed_cases sd orders1 band our_balance) as Hp.
  cbv zeta in Hc, Hp.
  set (s := top_up_band self sd orders1 target_price band our_balance) in *.
  simpl forallb in Hok. apply andb_true_iff in Hok. destruct Hok as [Hs Hok].
  rewrite Hs in *.
  pose proof (run_bands_placed_bound sd orders1 rest (balance_after s)) as Hrest.
  cbv zeta in Hrest.
  set (steps := run_bands (top_up_band self sd orders1 target_price) rest
                          (balance_after s)) in *.
  simpl map. simpl sum.
  set (balance2 := our_balance - (placed s + sum (map placed steps))).
  assert (Hhead : let s' := top_up_band self sd orders2 target_price band balance2 in
                  yields s' = [] /\ ok s' = true
                  /\ balance_after s' = balance_after s - sum (map placed steps)).
  { cbv zeta.
    pose proof (top_up_band_cases self orders2 target_price sd band balance2) as Hc2.
    cbv zeta in Hc2. rewrite Ht0 in Hc2.
    destruct Hc as [(Hmin & Hdust & Hpos & Hbal & Hres & Hy) | (Hskip & Hs1)].
    - destruct Hp as [(Hy0 & Hp) | (Hp & _)].
      + (* drawn but not yielded: the same again *)
        destruct (top_up_band_ext sd orders1 orders2 band our_balance balance2)
          as (E1 & E2 & E3).
        * rewrite Ht0, Hp. lia.
        * unfold balance2. rewrite Hp. unfold Wad in *. lia.
        * fold s in E1, E2, E3. rewrite E1, E2. repeat split; auto.
          unfold balance2 in *. unfold Wad in *. lia.
      + destruct Hc2 as [(Hmin2 & Hdust2 & Hpos2 & _) | (_ & ->)].
        * exfalso. unfold balance2 in *. unfold Wad in *. lia.
        * simpl. repeat split; auto. unfold balance2. unfold Wad in *. lia.
    - assert (Hp0 : placed s = 0) by (rewrite Hs1; reflexivity).
      assert (Hb : balance_after s = our_balance) by (rewrite Hs1; reflexivity).
      destruct Hc2 as [(Hmin2 & Hdust2 & Hpos2 & _) | (_ & ->)].
      + exfalso. unfold balance2 in *. unfold Wad in *. lia.
      + simpl. repeat split; auto. unfold balance2. unfold Wad in *. lia. }
  cbv zeta in Hhead. destruct Hhead as (Hy' & Hok' & Hb').
  rewrite Hok', Hb'. simpl flat_map. simpl forallb. rewrite Hy', Hok'. simpl.
  apply IH; [exact Hok|].
  intros j b sj Hb Hsj. exact (Htot (S j) b sj Hb Hsj).
Qed.

End SecondTopUp.

(** ** The pass with a price *)

Section PassFacts.
Context {World : Type} {venue : Venue World}.
Context {band_methods : BandMethods} {wad_ops : WadOps}.
Variable self : Keeper.

Lemma cancel_orders_run (orders : list Order) (w : World) :
  cancel_orders self orders w =
  if can_cancel self orders
  then (Some tt, submit_kills (our_address self) (map order_id orders) w,
        cancel_events orders)
  else (None, w, []).
Proof. unfold cancel_orders, can_cancel. destruct (gas_selected _ _); reflexivity. Qed.

(** The whole run of the top-up of both sides. *)
Lemma top_up_bands_run (orders : list Order) (buy_bands sell_bands : list Band)
    (target_price : Wad) (w : World) :
  top_up_bands self orders buy_bands sell_bands target_price w =
  let buys := run_bands (top_up_band self Buy orders target_price) buy_bands
                        (balance_of (sai self) w (our_address self)) in
  let sells := run_bands (top_up_band self Sell orders target_price) sell_bands
                         (balance_of (gem self) w (our_address self)) in
  let makes := flat_map yields buys ++ flat_map yields sells in
  if forallb ok buys && can_place self (flat_map yields buys) then
    if forallb ok sells && can_place self (flat_map yields sells) then
      (Some tt, submit_makes (our_address self) makes w,
       BalanceOf (sai self) :: BalanceOf (gem self) :: map Place makes)
    else (None, w, [BalanceOf (sai self); BalanceOf (gem self)])
  else (None, w, [BalanceOf (sai self)]).
Proof.
  cbv zeta. unfold top_up_bands, top_up_buy_bands, top_up_sell_bands, priced,
    can_place, bind, call, collect. simpl top_up_band.
  destruct (forallb ok (run_bands (top_up_buy_band _ _ _) _ _)); [|reflexivity].
  unfold ret at 1. cbv beta iota.
  destruct (gas_selected _ (flat_map yields (run_bands (top_up_buy_band _ _ _) _ _)));
    [|reflexivity].
  unfold ret at 1. cbv beta iota.
  destruct (forallb ok (run_bands (top_up_sell_band _ _ _) _ _)); [|reflexivity].
  unfold ret at 1. cbv beta iota.
  destruct (gas_selected _ (flat_map yields (run_bands (top_up_sell_band _ _ _) _ _)));
    reflexivity.
Qed.

(** The whole run of a pass that gets a price. *)
Lemma synchronize_orders_run (w : World) (target_price : Wad) :
  min_eth_balance self <= eth_balance w (our_address self) ->
  get_price w = Some target_price ->
  synchronize_orders self w =
  let cancels := cancel_intents self w target_price in
  let w1 := after_cancels self w target_price in
  let buys := top_up_steps self w target_price Buy in
  let sells := top_up_steps self w target_price Sell in
  let makes := flat_map yields buys ++ flat_map yields sells in
  let log1 := EthBalance :: log_of (band_configuration w)
              ++ GetOrders :: GetPrice :: cancel_events cancels
              ++ [GetOrders; BalanceOf (sai self)] in
  if can_cancel self cancels then
    if forallb ok buys && can_place self (flat_map yields buys) then
      if forallb ok sells && can_place self (flat_map yields sells) then
        (Some tt, submit_makes (our_address self) makes w1,
         log1 ++ BalanceOf (gem self) :: map Place makes)
      else (None, w1, log1 ++ [BalanceOf (gem self)])
    else (None, w1, log1)
  else (None, w,
        EthBalance :: log_of (band_configuration w) ++ [GetOrders; GetPrice]).
Proof.
  intros Heth Hprice. apply Z.ltb_ge in Heth. cbv zeta.
  unfold top_up_steps, after_cancels, cancel_intents, configured_bands.
  unfold synchronize_orders, bind at 1, call at 1. rewrite Heth.
  unfold bind at 1. rewrite band_configuration_run. cbv zeta.
  destruct (bands_overlap _ || bands_overlap _); cbv beta iota;
    unfold bind at 1; rewrite our_orders_run; cbv beta iota;
    unfold bind at 1, call at 1; rewrite Hprice; cbv beta iota;
    unfold bind at 1; rewrite cancel_orders_run; simpl fst; simpl snd;
    (destruct (can_cancel self _);
     [|unfold log_of; simpl; repeat rewrite <- app_assoc; reflexivity]);
    cbv beta iota; unfold bind at 1; rewrite our_orders_run; cbv beta iota;
    rewrite top_up_bands_run; cbv zeta; simpl have_token_of;
    repeat match goal with
           | |- context [if ?b then _ else _] => destruct b
           end;
    unfold log_of, cancel_events; simpl; repeat rewrite <- app_assoc; reflexivity.
Qed.

End PassFacts.

(** ** The reference chain *)

Section ChainFacts.
Variable self : Keeper.

Lemma filter_twice {A : Type} (f g : A -> bool) (l : list A) :
  filter f (filter g l) = filter (fun x => g x && f x) l.
Proof.
  induction l as [|x l IH]; simpl; [reflexivity|].
  destruct (g x); simpl; [destruct (f x)|]; rewrite IH; reflexivity.
Qed.

Lemma filter_all {A : Type} (f : A -> bool) (l : list A) :
  (forall x, In x l -> f x = true) -> filter f l = l.
Proof.
  induction l as [|x l IH]; simpl; intros H; [reflexivity|].
  rewrite (H x (or_introl eq_refl)), IH; auto.
Qed.

Lemma filter_none {A : Type} (f : A -> bool) (l : list A) :
  (forall x, In x l -> f x = false) -> filter f l = [].
Proof.
  induction l as [|x l IH]; simpl; intros H; [reflexivity|].
  rewrite (H x (or_introl eq_refl)), IH; auto.
Qed.

Lemma kills_frame (a : Address) (ids : list Z) (c : Chain) :
  let c' := fold_left (kill_one a) ids c in
  fee c' = fee c /\ config_file c' = config_file c /\ feed c' = feed c
  /\ next_id c' = next_id c.
Proof.
  cbv zeta. revert c. induction ids as [|id ids IH]; intros c; simpl; [auto|].
  destruct (IH (kill_one a c id)) as (H1 & H2 & H3 & H4).
  rewrite H1, H2, H3, H4. auto.
Qed.

Lemma kills_book (a : Address) (ids : list Z) (c : Chain) :
  book (fold_left (kill_one a) ids c)
  = filter (fun order => negb ((owner order =? a)
                               && existsb (Z.eqb (order_id order)) ids)) (book c).
Proof.
  revert c. induction ids as [|id ids IH]; intros c; simpl fold_left.
  - symmetry. apply filter_all. intros o _. simpl. now rewrite andb_false_r.
  - rewrite IH. simpl book. rewrite filter_twice. apply filter_ext. intros o. simpl.
    destruct (order_id o =? id), (owner o =? a), (existsb _ ids); reflexivity.
Qed.

Lemma own_after_kills (ids : list Z) (c : Chain) :
  own_orders self (submit_kills (our_address self) ids c)
  = survivors ids (own_orders self c).
Proof.
  unfold own_orders, survivors. simpl get_orders. unfold submit_kills. simpl.
  rewrite kills_book, !filter_twice. apply filter_ext. intros o.
  destruct (owner o =? our_address self), (existsb _ ids); reflexivity.
Qed.

Lemma survivors_none (ids : list Z) (orders : list Order) :
  (forall o, In o orders -> In (order_id o) ids) -> survivors ids orders = [].
Proof.
  intros H. apply filter_none. intros o Ho. apply negb_false_iff.
  apply existsb_exists. exists (order_id o). split; [auto|apply Z.eqb_refl].
Qed.

Lemma survivor_spec (ids : list Z) (orders : list Order) (o : Order) :
  In o (survivors ids orders) <-> In o orders /\ ~ In (order_id o) ids.
Proof.
  unfold survivors. rewrite filter_In, negb_true_iff. split; intros [H1 H2]; split; auto.
  - intros Hin. assert (E : existsb (Z.eqb (order_id o)) ids = true)
      by (apply existsb_exists; exists (order_id o); split; [auto|apply Z.eqb_refl]).
    congruence.
  - destruct (existsb _ ids) eqn:E; [|reflexivity]. exfalso. apply H2.
    apply existsb_exists in E. destruct E as (x & Hx & Ex).
    apply Z.eqb_eq in Ex. now rewrite Ex.
Qed.

(** A pass that cancels everything leaves the keeper without orders. *)
Lemma own_after_cancel_all (c : Chain) :
  own_orders self (submit_kills (our_address self)
                     (map order_id (own_orders self c)) c) = [].
Proof.
  rewrite own_after_kills. apply survivors_none. intros o Ho. now apply in_map.
Qed.

Lemma sum_have_nonneg (token : Address) (ms : list Make) :
  Forall (sells_token token) ms -> 0 <= sum (map have_amount ms).
Proof.
  induction 1 as [|m l (_ & H & _) _ IH]; simpl; lia.
Qed.

(** Makes of one token that the balance covers all go through. *)
Lemma makes_spend (a token : Address) (ms : list Make) (c : Chain) :
  Forall (sells_token token) ms ->
  sum (map have_amount ms) <= Z.max (tokens c token a) 0 ->
  let c' := fold_left (make_one a) ms c in
  book c' = book c ++ open_orders a (next_id c) ms
  /\ next_id c' = next_id c + Z.of_nat (List.length ms)
  /\ tokens c' token a = tokens c token a - sum (map have_amount ms)
  /\ (forall t h, (t =? token) && (h =? a) = false -> tokens c' t h = tokens c t h)
  /\ fee c' = fee c /\ config_file c' = config_file c /\ feed c' = feed c.
Proof.
  cbv zeta. intros Hms. revert c.
  induction Hms as [|m l (Htok & Hhave & Hwant) Hl IH]; intros c Hsum.
  - simpl. rewrite app_nil_r. repeat split; auto; lia.
  - simpl in Hsum. pose proof (sum_have_nonneg token l Hl) as Hnn.
    simpl fold_left.
    assert (E : (0 <? have_amount m) && (0 <? want_amount m)
                && (have_amount m <=? tokens c (have_token m) a) = true).
    { rewrite !andb_true_iff, !Z.ltb_lt, Z.leb_le, Htok. unfold Wad in *. lia. }
    set (c1 := mkChain (fee c) (charge a (fee c) (ether c))
                 (credit (have_token m) a (- have_amount m) (tokens c))
                 (config_file c) (feed c)
                 (book c ++ [placed_order a (next_id c) m]) (next_id c + 1)).
    assert (Ec : make_one a c m = c1) by (unfold make_one; rewrite E; reflexivity).
    rewrite Ec.
    assert (T1 : tokens c1 token a = tokens c token a - have_amount m).
    { simpl. unfold credit. rewrite Htok, !Z.eqb_refl. simpl. lia. }
    destruct (IH c1) as (B & N & T & O & F1 & F2 & F3).
    { rewrite T1. unfold Wad in *. lia. }
    rewrite B, N, T, T1, F1, F2, F3. simpl book. simpl next_id.
    rewrite <- app_assoc. simpl. repeat split; auto; try lia.
    intros t h Hth. rewrite (O t h Hth). simpl. unfold credit.
    rewrite Htok, Hth. reflexivity.
Qed.

Lemma open_orders_app (a : Address) (id : Z) (ms1 ms2 : list Make) :
  open_orders a id (ms1 ++ ms2)
  = open_orders a id ms1 ++ open_orders a (id + Z.of_nat (List.length ms1)) ms2.
Proof.
  revert id. induction ms1 as [|m l IH]; intros id.
  - simpl. now rewrite Z.add_0_r.
  - change (placed_order a id m :: open_orders a (id + 1) (l ++ ms2)
            = placed_order a id m
              :: open_orders a (id + 1) l
                 ++ open_orders a (id + Z.of_nat (S (List.length l))) ms2).
    rewrite IH, Nat2Z.inj_succ.
    replace (id + 1 + Z.of_nat (List.length l))
      with (id + Z.succ (Z.of_nat (List.length l))) by lia.
    reflexivity.
Qed.

Lemma open_orders_in (a : Address) (id : Z) (ms : list Make) (o : Order) :
  In o (open_orders a id ms) -> exists id' m, In m ms /\ o = placed_order a id' m.
Proof.
  revert id. induction ms as [|m l IH]; intros id; simpl; [intros []|].
  intros [<-|H].
  - exists id, m. auto.
  - destruct (IH _ H) as (id' & m' & Hm & ->). exists id', m'. auto.
Qed.

End ChainFacts.

(** ** Totals and positions *)

Section TotalsAndPositions.
Context {band_methods : BandMethods} {wad_ops : WadOps}.

Lemma total_amount_sum (orders : list Order) :
  total_amount orders = sum (map sell_how_much orders).
Proof.
  unfold total_amount.
  assert (H : forall l a, fold_left Z.add l a = a + sum l).
  { induction l as [|x l IH]; intros a; simpl; [lia|]. rewrite IH. lia. }
  rewrite H. lia.
Qed.

Lemma total_amount_app (l1 l2 : list Order) :
  total_amount (l1 ++ l2) = total_amount l1 + total_amount l2.
Proof. rewrite !total_amount_sum, map_app. apply sum_app. Qed.

Lemma total_amount_filter (f : Order -> bool) (orders : list Order) :
  (forall o, In o orders -> 0 <= sell_how_much o) ->
  total_amount (filter f orders) <= total_amount orders.
Proof.
  rewrite !total_amount_sum. induction orders as [|o l IH]; intros H; simpl; [lia|].
  assert (Ho : 0 <= sell_how_much o) by (apply H; left; reflexivity).
  assert (Hl : sum (map sell_how_much (filter f l)) <= sum (map sell_how_much l))
    by (apply IH; intros; apply H; right; assumption).
  destruct (f o); simpl; unfold Wad in *; lia.
Qed.

Lemma total_amount_open (a : Address) (id : Z) (ms : list Make) :
  total_amount (open_orders a id ms) = sum (map have_amount ms).
Proof.
  rewrite total_amount_sum. revert id.
  induction ms as [|m l IH]; intros id; simpl; [reflexivity|]. now rewrite IH.
Qed.

Lemma run_bands_length (body : Band -> Wad -> Step) (bands : list Band)
    (our_balance : Wad) :
  forallb ok (run_bands body bands our_balance) = true ->
  List.length (run_bands body bands our_balance) = List.length bands.
Proof.
  revert our_balance. induction bands as [|b l IH]; intros r; simpl; [reflexivity|].
  intros H. apply andb_true_iff in H. destruct H as [Hs H].
  rewrite Hs in *. now rewrite IH.
Qed.

Lemma run_bands_short (body : Band -> Wad -> Step) (bands : list Band)
    (our_balance : Wad) :
  (List.length (run_bands body bands our_balance) <= List.length bands)%nat.
Proof.
  revert our_balance. induction bands as [|b l IH]; intros r; simpl; [lia|].
  destruct (ok (body b r)); simpl; [specialize (IH (balance_after (body b r)))|]; lia.
Qed.

(** In a pass that ends, every band has its iteration. *)
Lemma step_of_band (body : Band -> Wad -> Step) (bands : list Band)
    (our_balance : Wad) (j : nat) (band : Band) :
  forallb ok (run_bands body bands our_balance) = true ->
  nth_error bands j = Some band ->
  exists s, nth_error (run_bands body bands our_balance) j = Some s.
Proof.
  intros Hok Hj. apply run_bands_length in Hok.
  destruct (nth_error (run_bands body bands our_balance) j) as [s|] eqn:E; [eauto|].
  apply nth_error_None in E.
  assert (j < List.length bands)%nat by (apply nth_error_Some; congruence). lia.
Qed.

Lemma band_of_step (body : Band -> Wad -> Step) (bands : list Band)
    (our_balance : Wad) (i : nat) (s : Step) :
  nth_error (run_bands body bands our_balance) i = Some s ->
  exists band, nth_error bands i = Some band.
Proof.
  intros Hi. pose proof (run_bands_short body bands our_balance).
  destruct (nth_error bands i) as [b|] eqn:E; [eauto|].
  apply nth_error_None in E.
  assert (i < List.length (run_bands body bands our_balance))%nat
    by (apply nth_error_Some; congruence). lia.
Qed.

Lemma yield_position (steps : list Step) (m : Make) :
  In m (flat_map yields steps) ->
  exists i s, nth_error steps i = Some s /\ In m (yields s).
Proof.
  intros H. apply in_flat_map in H. destruct H as (s & Hs & Hm).
  apply In_nth_error in Hs. destruct Hs as [i Hi]. eauto.
Qed.

(** Of the orders opened for a pass, a test that holds exactly for the
    orders of place [j] keeps the orders of that place. *)
Lemma filter_opened_at (a : Address) (test : Order -> bool) (steps : list Step)
    (j : nat) (id : Z) :
  (forall i s m id', nth_error steps i = Some s -> In m (yields s) ->
     test (placed_order a id' m) = Nat.eqb i j) ->
  exists id',
    filter test (open_orders a id (flat_map yields steps))
    = match nth_error steps j with
      | Some s => open_orders a id' (yields s)
      | None => []
      end.
Proof.
  revert j id. induction steps as [|s rest IH]; intros j id H.
  - exists id. destruct j; reflexivity.
  - simpl flat_map. rewrite open_orders_app, filter_app. destruct j as [|j].
    + exists id. simpl nth_error.
      rewrite filter_all, filter_none; [apply app_nil_r| |].
      * intros o Ho. apply open_orders_in in Ho. destruct Ho as (id' & m & Hm & ->).
        destruct (yield_position _ _ Hm) as (i & s' & Hi & Hs').
        exact (H (S i) s' m id' Hi Hs').
      * intros o Ho. apply open_orders_in in Ho. destruct Ho as (id' & m & Hm & ->).
        exact (H 0%nat s m id' eq_refl Hm).
    + destruct (IH j (id + Z.of_nat (List.length (yields s)))) as [id' E].
      { intros i s' m id' Hi Hm. exact (H (S i) s' m id' Hi Hm). }
      exists id'. simpl nth_error. rewrite E, filter_none; [reflexivity|].
      intros o Ho. apply open_orders_in in Ho. destruct Ho as (id'' & m & Hm & ->).
      exact (H 0%nat s m id'' eq_refl Hm).
Qed.

End TotalsAndPositions.

(** ** A second pass on the reference chain *)

Section SecondPass.
Context {band_methods : BandMethods} {wad_ops : WadOps}.
Variable self : Keeper.
Variable c : Chain.
Variable p : Wad.

Hypothesis Htokens : sai self <> gem self.
Hypothesis Hexc : excessive_all_or_nothing.
Hypothesis Hamounts : forall o, In o (own_orders self c) -> 0 <= sell_how_much o.
Hypothesis Havg : forall sd band,
  In band (configured_bands c sd) -> avg_amount band <= max_amount band.
Hypothesis Hplace : forall sd, placed_in_own_band self c p sd.
Hypothesis Hok : forall sd, forallb ok (top_up_steps self c p sd) = true.

Local Abbreviation a := (our_address self).
Local Abbreviation c1 := (after_cancels self c p).
Local Abbreviation ys sd := (flat_map yields (top_up_steps self c p sd)).
Local Abbreviation c2 := (submit_makes a (ys Buy ++ ys Sell) c1).

Lemma yields_of_pass (sd : Side) (m : Make) :
  In m (ys sd) ->
  have_token m = have_token_of self sd /\ want_token m = want_token_of self sd
  /\ 0 < have_amount m /\ 0 < want_amount m.
Proof.
  intros Hm. destruct (yield_position _ _ Hm) as (i & s & Hi & Hs).
  unfold top_up_steps in Hi.
  destruct (band_of_step _ _ _ _ _ Hi) as [band Hband].
  rewrite (run_bands_nth _ _ _ _ _ _ Hband Hi) in Hs.
  exact (yields_shape self p sd _ _ _ m Hs).
Qed.

Lemma yields_sell (sd : Side) : Forall (sells_token (have_token_of self sd)) (ys sd).
Proof.
  apply Forall_forall. intros m Hm.
  destruct (yields_of_pass sd m Hm) as (H1 & _ & H2 & H3). split; auto.
Qed.

Lemma yields_within_balance (sd : Side) :
  sum (map have_amount (ys sd)) <= Z.max (tokens c1 (have_token_of self sd) a) 0.
Proof.
  rewrite placed_sum. unfold top_up_steps.
  apply (run_bands_placed_bound self p sd).
Qed.

(** The chain after the makes of the first pass. *)
Lemma after_makes :
  book c2 = book c1 ++ open_orders a (next_id c1) (ys Buy)
            ++ open_orders a (next_id c1 + Z.of_nat (List.length (ys Buy))) (ys Sell)
  /\ (forall sd, tokens c2 (have_token_of self sd) a
                 = tokens c1 (have_token_of self sd) a - sum (map have_amount (ys sd)))
  /\ fee c2 = fee c /\ config_file c2 = config_file c /\ feed c2 = feed c.
Proof.
  assert (Ec2 : c2 = fold_left (make_one a) (ys Sell)
                       (fold_left (make_one a) (ys Buy) c1))
    by exact (fold_left_app _ _ _ _).
  rewrite Ec2. clear Ec2.
  destruct (makes_spend a (sai self) (ys Buy) c1 (yields_sell Buy)
              (yields_within_balance Buy)) as (B1 & N1 & T1 & O1 & E1 & C1 & F1).
  set (cm := fold_left (make_one a) (ys Buy) c1) in *.
  assert (Hgem : tokens cm (gem self) a = tokens c1 (gem self) a).
  { apply O1. apply andb_false_iff. left. apply Z.eqb_neq. congruence. }
  destruct (makes_spend a (gem self) (ys Sell) cm (yields_sell Sell))
    as (B2 & N2 & T2 & O2 & E2 & C2 & F2).
  { rewrite Hgem. apply (yields_within_balance Sell). }
  assert (K : fee c1 = fee c /\ config_file c1 = config_file c
               /\ feed c1 = feed c /\ next_id c1 = next_id c)
    by exact (kills_frame a _ c).
  destruct K as (K1 & K2 & K3 & K4).
  repeat split.
  - rewrite B2, B1, N1, <- app_assoc. reflexivity.
  - intros [|]; simpl have_token_of.
    + rewrite O2; [exact T1|]. apply andb_false_iff. left. apply Z.eqb_neq. congruence.
    + rewrite T2, Hgem. reflexivity.
  - rewrite E2, E1. exact K1.
  - rewrite C2, C1. exact K2.
  - rewrite F2, F1. exact K3.
Qed.

Lemma own_of_open (id : Z) (ms : list Make) :
  filter (fun order => owner order =? a) (open_orders a id ms) = open_orders a id ms.
Proof.
  apply filter_all. intros o Ho. apply open_orders_in in Ho.
  destruct Ho as (id' & m & _ & ->). apply Z.eqb_refl.
Qed.

Lemma own_after_makes :
  own_orders self c2
  = own_orders self c1 ++ open_orders a (next_id c1) (ys Buy)
    ++ open_orders a (next_id c1 + Z.of_nat (List.length (ys Buy))) (ys Sell).
Proof.
  destruct after_makes as (B & _). unfold own_orders at 1.
  change (get_orders c2) with (book c2). rewrite B, !filter_app, !own_of_open.
  reflexivity.
Qed.

Lemma side_of_open (sd sd' : Side) (id : Z) :
  side_orders self sd (open_orders a id (ys sd'))
  = match sd, sd' with
    | Buy, Buy | Sell, Sell => open_orders a id (ys sd')
    | _, _ => []
    end.
Proof.
  assert (H : forall o, In o (open_orders a id (ys sd')) ->
                sell_which_token o = have_token_of self sd'
                /\ buy_which_token o = want_token_of self sd').
  { intros o Ho. apply open_orders_in in Ho. destruct Ho as (id' & m & Hm & ->).
    destruct (yields_of_pass sd' m Hm) as (H1 & H2 & _). auto. }
  destruct sd, sd'; simpl side_orders; unfold our_buy_orders, our_sell_orders;
    (apply filter_all || apply filter_none); intros o Ho;
    destruct (H o Ho) as [H1 H2]; simpl in H1, H2;
    unfold is_buy_order, is_sell_order; rewrite H1, H2.
  - now rewrite !Z.eqb_refl.
  - apply andb_false_iff. left. apply Z.eqb_neq. congruence.
  - apply andb_false_iff. left. apply Z.eqb_neq. congruence.
  - now rewrite !Z.eqb_refl.
Qed.

Lemma side_orders_app (sd : Side) (l1 l2 : list Order) :
  side_orders self sd (l1 ++ l2) = side_orders self sd l1 ++ side_orders self sd l2.
Proof. destruct sd; apply filter_app. Qed.

(** The orders of a side after the first pass: those left by its cancels
    and those its top-up opened. *)
Lemma side_after_makes (sd : Side) :
  exists id,
    side_orders self sd (own_orders self c2)
    = side_orders self sd (own_orders self c1) ++ open_orders a id (ys sd).
Proof.
  rewrite own_after_makes, !side_orders_app, !side_of_open.
  destruct sd; eexists; [rewrite app_nil_r|]; reflexivity.
Qed.

(** The orders a band includes after the first pass. *)
Lemma in_band_after_makes (sd : Side) (j : nat) (band : Band) (s : Step) :
  nth_error (configured_bands c sd) j = Some band ->
  nth_error (top_up_steps self c p sd) j = Some s ->
  exists id,
    filter (fun order => includes band order p) (side_orders self sd (own_orders self c2))
    = filter (fun order => includes band order p) (side_orders self sd (own_orders self c1))
      ++ open_orders a id (yields s).
Proof.
  intros Hband Hs. destruct (side_after_makes sd) as [id E]. rewrite E, filter_app.
  destruct (filter_opened_at a (fun order => includes band order p)
              (top_up_steps self c p sd) j id) as [id' E'].
  { intros i s' m id' Hi Hm. exact (Hplace sd i j s' m band id' Hi Hm Hband). }
  rewrite Hs in E'. exists id'. now rewrite E'.
Qed.

Lemma band_total_after_makes (sd : Side) (j : nat) (band : Band) (s : Step) :
  nth_error (configured_bands c sd) j = Some band ->
  nth_error (top_up_steps self c p sd) j = Some s ->
  band_total self sd (own_orders self c2) p band
  = band_total self sd (own_orders self c1) p band + placed s.
Proof.
  intros Hband Hs. unfold band_total.
  destruct (in_band_after_makes sd j band s Hband Hs) as [id E].
  rewrite E, total_amount_app, total_amount_open. reflexivity.
Qed.

Lemma config_after_makes (sd : Side) : configured_bands c2 sd = configured_bands c sd.
Proof.
  destruct after_makes as (_ & _ & _ & C & _). unfold configured_bands.
  change (get_config c2) with (config_file c2). rewrite C. reflexivity.
Qed.

Lemma own_after_cancels :
  own_orders self c1
  = survivors (map order_id (cancel_intents self c p)) (own_orders self c).
Proof. apply own_after_kills. Qed.

Lemma filter_survivors (f : Order -> bool) (ids : list Z) (orders : list Order) :
  filter f (survivors ids orders) = survivors ids (filter f orders).
Proof.
  unfold survivors. rewrite !filter_twice. apply filter_ext. intros o. apply andb_comm.
Qed.

Lemma side_survivors (sd : Side) (ids : list Z) (orders : list Order) :
  side_orders self sd (survivors ids orders) = survivors ids (side_orders self sd orders).
Proof. destruct sd; apply filter_survivors. Qed.

Lemma excessive_are_cancelled (sd : Side) (band : Band) (o : Order) :
  In band (configured_bands c sd) ->
  In o (excessive_orders band (side_orders self sd (own_orders self c)) p) ->
  In o (cancel_intents self c p).
Proof.
  intros Hband Ho. unfold cancel_intents. rewrite !in_app_iff.
  destruct sd; [left | right; left]; apply in_flat_map; exists band; auto.
Qed.

Lemma outside_are_cancelled (sd : Side) (o : Order) :
  In o (outside_any_band_orders (side_orders self sd (own_orders self c))
          (configured_bands c sd) p) ->
  In o (cancel_intents self c p).
Proof.
  intros Ho. unfold cancel_intents, outside_orders. rewrite !in_app_iff.
  right; right. destruct sd; [left | right]; exact Ho.
Qed.

(** After the cancels of the first pass no band is above its maximum. *)
Lemma in_band_after_cancels (sd : Side) (band : Band) :
  In band (configured_bands c sd) ->
  let in_band := filter (fun order => includes band order p)
                        (side_orders self sd (own_orders self c1)) in
  in_band = [] \/ total_amount in_band <= max_amount band.
Proof.
  intros Hband. cbv zeta.
  rewrite own_after_cancels, side_survivors, filter_survivors.
  set (in0 := filter (fun order => includes band order p)
                     (side_orders self sd (own_orders self c))).
  pose proof (Hexc band (side_orders self sd (own_orders self c)) p) as E.
  cbv zeta in E. fold in0 in E.
  destruct (max_amount band <? total_amount in0) eqn:Emax.
  - left. apply survivors_none. intros o Ho. apply in_map.
    apply (excessive_are_cancelled sd band); [exact Hband|]. rewrite E. exact Ho.
  - right. apply Z.ltb_ge in Emax.
    assert (total_amount (survivors (map order_id (cancel_intents self c p)) in0)
            <= total_amount in0); [|lia].
    apply total_amount_filter. intros o Ho. apply Hamounts.
    unfold in0 in Ho. apply filter_In in Ho. destruct Ho as [Ho _].
    destruct sd; simpl in Ho; apply filter_In in Ho; tauto.
Qed.

(** After the first pass no band gives up an order. *)
Lemma no_excess_after_pass (sd : Side) (band : Band) :
  In band (configured_bands c sd) ->
  excessive_orders band (side_orders self sd (own_orders self c2)) p = [].
Proof.
  intros Hband. rewrite Hexc. cbv zeta.
  destruct (In_nth_error _ _ Hband) as [j Hj].
  destruct (step_of_band _ _ _ j band (Hok sd) Hj) as [s Hs].
  destruct (in_band_after_makes sd j band s Hj Hs) as [id E]. rewrite E.
  assert (Es : s = top_up_band self sd (own_orders self c1) p band
                     (nth j (running_balances (top_up_band self sd (own_orders self c1) p)
                               (configured_bands c sd)
                               (balance_of (have_token_of self sd) c1 a)) 0))
    by exact (run_bands_nth _ _ _ _ _ _ Hj Hs).
  pose proof (placed_cases self p sd (own_orders self c1) band
                (nth j (running_balances (top_up_band self sd (own_orders self c1) p)
                          (configured_bands c sd)
                          (balance_of (have_token_of self sd) c1 a)) 0)) as Hp.
  cbv zeta in Hp. rewrite <- Es in Hp. unfold band_total in Hp.
  pose proof (in_band_after_cancels sd band Hband) as Hc. cbv zeta in Hc.
  set (in1 := filter (fun order => includes band order p)
                     (side_orders self sd (own_orders self c1))) in *.
  destruct Hp as [(Hy & _) | (Hpl & Hmin & Hpos & _)].
  - rewrite Hy. simpl open_orders. rewrite app_nil_r.
    destruct Hc as [-> | Hc]; [destruct (_ <? _); reflexivity|].
    apply Z.ltb_ge in Hc. now rewrite Hc.
  - assert (Hle : total_amount (in1 ++ open_orders a id (yields s)) <= max_amount band).
    { rewrite total_amount_app, total_amount_open. fold (placed s). rewrite Hpl.
      pose proof (Havg sd band Hband). unfold Wad in *. lia. }
    apply Z.ltb_ge in Hle. now rewrite Hle.
Qed.

(** After the first pass every order of a side is in a band of the side. *)
Lemma no_outside_after_pass (sd : Side) :
  outside_any_band_orders (side_orders self sd (own_orders self c2))
                          (configured_bands c sd) p = [].
Proof.
  apply filter_none. intros o Ho. apply negb_false_iff.
  destruct (side_after_makes sd) as [id E]. rewrite E in Ho.
  apply in_app_iff in Ho. destruct Ho as [Ho | Ho].
  - rewrite own_after_cancels, side_survivors in Ho.
    apply survivor_spec in Ho. destruct Ho as [Ho Hid].
    destruct (existsb _ (configured_bands c sd)) eqn:Ex; [reflexivity|].
    exfalso. apply Hid. apply in_map. apply (outside_are_cancelled sd).
    apply filter_In. split; [exact Ho|]. now rewrite Ex.
  - apply open_orders_in in Ho. destruct Ho as (id' & m & Hm & ->).
    destruct (yield_position _ _ Hm) as (i & s & Hi & Hs).
    destruct (band_of_step _ _ _ _ _ Hi) as [band Hband].
    apply existsb_exists. exists band. split; [eapply nth_error_In; eauto|].
    rewrite (Hplace sd i i s m band id' Hi Hs Hband). apply Nat.eqb_refl.
Qed.

Lemma flat_map_nil {A B : Type} (f : A -> list B) (l : list A) :
  (forall x, In x l -> f x = []) -> flat_map f l = [].
Proof.
  induction l as [|x l IH]; intros H; simpl; [reflexivity|].
  rewrite (H x (or_introl eq_refl)), IH; auto. intros y Hy. apply H. now right.
Qed.

(** The second pass has nothing to cancel. *)
Lemma no_cancels_after_pass : cancel_intents self c2 p = [].
Proof.
  unfold cancel_intents. rewrite !config_after_makes.
  assert (Eb : excessive_buy_orders self (own_orders self c2)
                 (configured_bands c Buy) p = [])
    by exact (flat_map_nil _ _ (no_excess_after_pass Buy)).
  assert (Es : excessive_sell_orders self (own_orders self c2)
                 (configured_bands c Sell) p = [])
    by exact (flat_map_nil _ _ (no_excess_after_pass Sell)).
  assert (Eo : outside_orders self (own_orders self c2) (configured_bands c Buy)
                 (configured_bands c Sell) p = []).
  { unfold outside_orders.
    change (our_buy_orders self (own_orders self c2))
      with (side_orders self Buy (own_orders self c2)).
    change (our_sell_orders self (own_orders self c2))
      with (side_orders self Sell (own_orders self c2)).
    rewrite (no_outside_after_pass Buy), (no_outside_after_pass Sell). reflexivity. }
  rewrite Eb, Es, Eo. reflexivity.
Qed.

(** The top-up of the second pass yields nothing. *)
Lemma top_up_after_pass (sd : Side) :
  flat_map yields (top_up_steps self c2 p sd) = []
  /\ forallb ok (top_up_steps self c2 p sd) = true.
Proof.
  assert (E : top_up_steps self c2 p sd
              = run_bands (top_up_band self sd (own_orders self c2) p)
                  (configured_bands c sd)
                  (tokens c1 (have_token_of self sd) a
                   - sum (map placed (top_up_steps self c p sd)))).
  { destruct after_makes as (_ & T & _). rewrite <- placed_sum, <- (T sd).
    pose proof no_cancels_after_pass as Hnone.
    pose proof (config_after_makes sd) as Hconf.
    set (w := c2) in *. clearbody w.
    unfold top_up_steps, after_cancels. rewrite Hnone, Hconf. reflexivity. }
  rewrite E.
  apply (second_run_is_quiet self p sd (own_orders self c1) (own_orders self c2)
           (configured_bands c sd) (tokens c1 (have_token_of self sd) a)).
  - exact (Hok sd).
  - intros j band s Hband Hs. exact (band_total_after_makes sd j band s Hband Hs).
Qed.

End SecondPass.

(** ** Idempotence *)

Section Idempotence.
Context {band_methods : BandMethods} {wad_ops : WadOps}.
Variable self : Keeper.

Lemma band_configuration_quiet (w : Chain) :
  kills (log_of (band_configuration w)) = []
  /\ places (log_of (band_configuration w)) = [].
Proof. destruct (band_configuration_log w) as [E|E]; rewrite E; auto. Qed.

(** A pass on a chain where the keeper has no order cancels and places
    nothing when it stops at the ETH guard or gets no price. *)
Lemma cancel_all_is_idempotent (c : Chain) :
  let c' := submit_kills (our_address self) (map order_id (own_orders self c)) c in
  (eth_balance c' (our_address self) <? min_eth_balance self)
  = (eth_balance c (our_address self) <? min_eth_balance self) ->
  eth_balance c (our_address self) < min_eth_balance self \/ get_price c = None ->
  kills (log_of (synchronize_orders self c')) = []
  /\ places (log_of (synchronize_orders self c')) = [].
Proof.
  intros c' Hguard Hcase.
  assert (Hown : own_orders self c' = []) by apply own_after_cancel_all.
  assert (Hc : can_cancel self (own_orders self c') = true) by (rewrite Hown; reflexivity).
  assert (K : fee c' = fee c /\ config_file c' = config_file c
               /\ feed c' = feed c /\ next_id c' = next_id c)
    by exact (kills_frame (our_address self) _ c).
  destruct K as (_ & _ & K3 & _).
  destruct (Z_lt_le_dec (eth_balance c' (our_address self)) (min_eth_balance self))
    as [Hlow|Hhigh].
  - destruct (low_eth_balance_guard self c' Hlow Hc) as (_ & Hk & _ & Hp & _).
    rewrite Hk, Hp, Hown. auto.
  - assert (Hprice : get_price c' = None).
    { destruct Hcase as [Hlow|Hnone].
      - exfalso. apply Z.ltb_lt in Hlow. rewrite Hlow in Hguard.
        apply Z.ltb_lt in Hguard. lia.
      - change (feed c' = None). rewrite K3. exact Hnone. }
    rewrite (synchronize_orders_no_price self c' Hhigh Hprice Hc), Hown.
    unfold log_of at 1 3. simpl snd.
    destruct (band_configuration_quiet c') as [Hk Hp].
    change (kills (EthBalance :: ?l)) with (kills l).
    split.
    + change (kills (log_of (band_configuration c') ++ [GetOrders; GetPrice;
                Warning no_price_message; GetOrders]) = []).
      rewrite kills_app, Hk. reflexivity.
    + change (places (log_of (band_configuration c') ++ [GetOrders; GetPrice;
                Warning no_price_message; GetOrders]) = []).
      rewrite places_app, Hp. reflexivity.
Qed.


End Idempotence.

(** ** The properties at sample data *)

Lemma low_eth_balance_short_circuits_witness :
  eth_balance chain_overlap (our_address keeper_low) < min_eth_balance keeper_low
  /\ kills (log_of (synchronize_orders keeper_low chain_overlap)) = [1; 7]
  /\ places (log_of (synchronize_orders keeper_low chain_overlap)) = [].
Proof.
  assert (H : eth_balance chain_overlap (our_address keeper_low)
              < min_eth_balance keeper_low) by (vm_compute; reflexivity).
  pose proof (low_eth_balance_short_circuits keeper_low chain_overlap H eq_refl) as T.
  cbv zeta in T. destruct T as (_ & _ & Hk & _ & _ & _ & _ & Hp).
  split; [exact H|]. split; [rewrite Hk; reflexivity | exact Hp].
Defined.

Lemma low_eth_balance_pass_raises_witness :
  eth_balance chain_overlap (our_address keeper_low_stuck)
  < min_eth_balance keeper_low_stuck
  /\ map order_id (own_orders keeper_low_stuck chain_overlap) = [1; 7]
  /\ gas_price_for_order_cancellation (arguments keeper_low_stuck) = None
  /\ result_of (synchronize_orders keeper_low_stuck chain_overlap) = None
  /\ kills (log_of (synchronize_orders keeper_low_stuck chain_overlap)) = [].
Proof.
  assert (H1 : eth_balance chain_overlap (our_address keeper_low_stuck)
               < min_eth_balance keeper_low_stuck) by (vm_compute; reflexivity).
  assert (H2 : own_orders keeper_low_stuck chain_overlap <> [])
    by (vm_compute; discriminate).
  assert (H3 : gas_price_for_order_cancellation (arguments keeper_low_stuck) = None)
    by reflexivity.
  destruct (low_eth_balance_pass_raises keeper_low_stuck chain_overlap H1 H2 H3)
    as (Hr & _ & Hk & _).
  split; [exact H1|]. split; [vm_compute; reflexivity|]. split; [exact H3|].
  split; [exact Hr | exact Hk].
Defined.

Lemma no_price_cancels_all_witness :
  get_price chain_no_price = None
  /\ kills (log_of (synchronize_orders keeper0 chain_no_price)) = [1; 7]
  /\ places (log_of (synchronize_orders keeper0 chain_no_price)) = [].
Proof.
  assert (H : get_price chain_no_price = None) by reflexivity.
  pose proof (no_price_cancels_all keeper0 chain_no_price H eq_refl) as T.
  cbv zeta in T. destruct T as (_ & Hk & _ & Hp & _).
  split; [exact H|]. split; [rewrite Hk; reflexivity | exact Hp].
Defined.

Lemma no_price_pass_raises_witness :
  get_price chain_no_price = None
  /\ map order_id (own_orders keeper_stuck chain_no_price) = [1; 7]
  /\ gas_price_for_order_cancellation (arguments keeper_stuck) = None
  /\ result_of (synchronize_orders keeper_stuck chain_no_price) = None
  /\ kills (log_of (synchronize_orders keeper_stuck chain_no_price)) = [].
Proof.
  assert (H1 : get_price chain_no_price = None) by reflexivity.
  assert (H2 : own_orders keeper_stuck chain_no_price <> [])
    by (vm_compute; discriminate).
  assert (H3 : gas_price_for_order_cancellation (arguments keeper_stuck) = None)
    by reflexivity.
  destruct (no_price_pass_raises keeper_stuck chain_no_price H1 H2 H3)
    as (Hr & Hk & _).
  split; [exact H1|]. split; [vm_compute; reflexivity|]. split; [exact H3|].
  split; [exact Hr | exact Hk].
Defined.

Lemma top_up_conserves_balance_witness :
  0 <= wad 20
  /\ sum (map have_amount
            (flat_map yields
               (run_bands (top_up_band keeper0 Sell [] (wad 300))
                          [sell_band0; sell_band0] (wad 20))))
     <= wad 20.
Proof.
  assert (H : 0 <= wad 20) by (vm_compute; discriminate).
  split; [exact H|].
  exact (proj1 (proj2 (top_up_conserves_balance keeper0 [] (wad 300) Sell
                         [sell_band0; sell_band0] (wad 20) H))).
Defined.

Lemma top_up_trigger_and_amount_witness :
  let body := top_up_band keeper0 Sell [] (wad 300) in
  nth_error [sell_band0] 0 = Some sell_band0
  /\ nth_error (run_bands body [sell_band0] (wad 20)) 0
     = Some (body sell_band0 (wad 20))
  /\ forall m, In m (yields (body sell_band0 (wad 20))) ->
       band_total keeper0 Sell [] (wad 300) sell_band0 < min_amount sell_band0
       /\ have_amount m
          = Z.min (avg_amount sell_band0 - band_total keeper0 Sell [] (wad 300) sell_band0)
                  (nth 0 (running_balances body [sell_band0] (wad 20)) 0).
Proof.
  intros body.
  assert (H1 : nth_error [sell_band0] 0 = Some sell_band0) by reflexivity.
  assert (H2 : nth_error (run_bands body [sell_band0] (wad 20)) 0
               = Some (body sell_band0 (wad 20))) by reflexivity.
  split; [exact H1|]. split; [exact H2|].
  exact (proj1 (top_up_trigger_and_amount keeper0 [] (wad 300) Sell [sell_band0]
                  (wad 20) 0 sell_band0 (body sell_band0 (wad 20)) H1 H2)).
Defined.

Lemma dust_is_suppressed_witness :
  let body := top_up_band keeper0 Sell [] (wad 300) in
  nth_error [sell_band0] 0 = Some sell_band0
  /\ nth_error (run_bands body [sell_band0] 0) 0 = Some (body sell_band0 0)
  /\ Z.min (avg_amount sell_band0 - band_total keeper0 Sell [] (wad 300) sell_band0)
           (nth 0 (running_balances body [sell_band0] 0) 0) <= 0
  /\ yields (body sell_band0 0) = []
  /\ balance_after (body sell_band0 0) = 0.
Proof.
  intros body.
  assert (H1 : nth_error [sell_band0] 0 = Some sell_band0) by reflexivity.
  assert (H2 : nth_error (run_bands body [sell_band0] 0) 0 = Some (body sell_band0 0))
    by reflexivity.
  assert (H3 : Z.min (avg_amount sell_band0
                      - band_total keeper0 Sell [] (wad 300) sell_band0)
                     (nth 0 (running_balances body [sell_band0] 0) 0) <= 0)
    by (vm_compute; discriminate).
  pose proof (dust_is_suppressed keeper0 [] (wad 300) Sell [sell_band0] 0 0 sell_band0
                (body sell_band0 0) H1 H2 (or_intror H3)) as T.
  destruct T as (Hy & _ & Hb & _).
  split; [exact H1|]. split; [exact H2|]. split; [exact H3|]. split; [exact Hy | exact Hb].
Defined.



(** * Further properties *)

(** ** Band validation *)

(** X1: a list of at most one band is accepted, whatever its margins. *)
Theorem one_band_never_overlaps (bands : list Band) :
  (List.length bands <= 1)%nat -> bands_overlap bands = false.
Proof.
  destruct bands as [|band [|next rest]]; simpl List.length; intros H; try lia.
  - reflexivity.
  - unfold bands_overlap. simpl. destruct (two_bands_overlap band band); reflexivity.
Qed.

Lemma ascending_tail (band : Band) (rest : list Band) :
  Ascending (band :: rest) -> Ascending rest.
Proof. inversion 1; subst; auto. constructor. Qed.

Lemma ascending_head (band : Band) (rest : list Band) :
  Ascending (band :: rest) -> (min_margin band <= max_margin band)%Q.
Proof. inversion 1; subst; auto. Qed.

(** In an ascending list a band ends no later than any later band begins. *)
Lemma ascending_later (band : Band) (rest : list Band) (later : Band) :
  Ascending (band :: rest) -> In later rest ->
  (max_margin band <= min_margin later)%Q.
Proof.
  revert band. induction rest as [|next rest IH]; intros band Hasc Hin; [destruct Hin|].
  inversion Hasc as [| |b n r Hb Hbn Hrest]; subst.
  destruct Hin as [<-|Hin]; [exact Hbn|].
  pose proof (IH next Hrest Hin). pose proof (ascending_head _ _ Hrest). lra.
Qed.

Lemma ascending_positions (bands : list Band) (i j : nat) (band1 band2 : Band) :
  Ascending bands -> (i < j)%nat ->
  nth_error bands i = Some band1 -> nth_error bands j = Some band2 ->
  (max_margin band1 <= min_margin band2)%Q.
Proof.
  revert i j. induction bands as [|band rest IH]; intros i j Hasc Hlt Hi Hj.
  - destruct i; discriminate.
  - destruct j as [|j]; [lia|]. destruct i as [|i].
    + injection Hi as <-. apply (ascending_later band rest); [exact Hasc|].
      eapply nth_error_In. exact Hj.
    + apply (IH i j); [eapply ascending_tail; eauto | lia | exact Hi | exact Hj].
Qed.

(** X2: bands listed in ascending order, each ending no later than the next
    begins (adjacent bands included), are accepted. *)
Theorem ascending_bands_do_not_overlap (bands : list Band) :
  Ascending bands -> bands_overlap bands = false.
Proof.
  intros Hasc. destruct (bands_overlap bands) eqn:E; [exfalso|reflexivity].
  unfold bands_overlap in E. apply existsb_exists in E.
  destruct E as (band & Hin & Hcount). apply Nat.ltb_lt in Hcount.
  apply In_nth_error in Hin. destruct Hin as [i Hi].
  destruct (two_in_filter _ _ Hcount) as (j & k & y & z & Hne & Hj & Hk & Hy & Hz).
  assert (Hother : exists n other, n <> i /\ nth_error bands n = Some other
                                  /\ two_bands_overlap band other = true).
  { destruct (Nat.eq_dec j i) as [->|Hji].
    - exists k, z. repeat split; auto.
    - exists j, y. repeat split; auto. }
  destruct Hother as (n & other & Hn & Hnth & Hov).
  apply two_bands_overlap_spec in Hov. destruct Hov as [H1 H2].
  destruct (Nat.lt_ge_cases i n) as [Hlt|Hge].
  - pose proof (ascending_positions bands i n band other Hasc Hlt Hi Hnth). lra.
  - assert (Hlt : (n < i)%nat) by lia.
    pose proof (ascending_positions bands n i other band Hasc Hlt Hnth Hi). lra.
Qed.

Lemma existsb_permutation {A : Type} (f : A -> bool) (l l' : list A) :
  Permutation l l' -> existsb f l = existsb f l'.
Proof.
  induction 1 as [|x l l' _ IH|x y l|l l' l'' _ IH1 _ IH2]; simpl.
  - reflexivity.
  - now rewrite IH.
  - destruct (f x), (f y); reflexivity.
  - congruence.
Qed.

Lemma existsb_pointwise {A : Type} (f g : A -> bool) (l : list A) :
  (forall x, f x = g x) -> existsb f l = existsb g l.
Proof. intros H. induction l as [|x l IH]; simpl; [reflexivity|]. now rewrite H, IH. Qed.

Lemma filter_permutation {A : Type} (f : A -> bool) (l l' : list A) :
  Permutation l l' -> Permutation (filter f l) (filter f l').
Proof.
  induction 1 as [|x l l' _ IH|x y l|l l' l'' _ IH1 _ IH2]; simpl.
  - constructor.
  - destruct (f x); [constructor|]; exact IH.
  - destruct (f x), (f y); try apply Permutation_refl. constructor.
  - eapply Permutation_trans; eauto.
Qed.

(** X3: the answer does not depend on the order in which the bands are listed. *)
Theorem bands_overlap_any_order (bands bands' : list Band) :
  Permutation bands bands' -> bands_overlap bands = bands_overlap bands'.
Proof.
  intros Hperm. unfold bands_overlap.
  rewrite (existsb_permutation _ _ _ Hperm).
  apply existsb_pointwise. intros band1.
  now rewrite (Permutation_length (filter_permutation _ _ _ Hperm)).
Qed.

(** X4: bands added before or after a rejected list leave it rejected. *)
Theorem bands_overlap_grows (before bands after : list Band) :
  bands_overlap bands = true -> bands_overlap (before ++ bands ++ after) = true.
Proof.
  unfold bands_overlap. rewrite !existsb_exists.
  intros (band1 & Hin & Hcount). exists band1. split.
  - rewrite !in_app_iff. auto.
  - apply Nat.ltb_lt in Hcount. apply Nat.ltb_lt.
    rewrite !filter_app, !length_app. lia.
Qed.

(** ** Gas price selection *)

(** X5: selecting the gas price of a placement raises exactly when no gas price
    is set, or when a positive one is set without an increase. *)
Theorem placement_selection_raises (arguments : GasArguments) :
  gas_price_for_order_placement arguments = None <->
  gas_price arguments = None
  \/ exists price, gas_price arguments = Some price /\ 0 < price
                   /\ gas_price_increase arguments = None.
Proof.
  unfold gas_price_for_order_placement, and_then, greater_than_zero.
  destruct (gas_price arguments) as [price|]; [|split; auto].
  destruct (0 <? price) eqn:Ep; [apply Z.ltb_lt in Ep | apply Z.ltb_ge in Ep].
  - destruct (gas_price_increase arguments) as [inc|].
    + split.
      * destruct (0 <? inc); discriminate.
      * intros [H | (q & _ & _ & H)]; discriminate.
    + split; [|reflexivity]. intros _. right. exists price. auto.
  - split; [discriminate|].
    intros [H | (q & Hq & Hpos & _)]; [discriminate|]. injection Hq as <-. lia.
Qed.

(** X6: the strategy of a placement: increasing only with a positive gas price
    and a positive increase, fixed only with a positive gas price and an
    increase that is given and not positive, the default only with a gas
    price that is not positive. *)
Theorem placement_strategy (arguments : GasArguments) (strategy : GasPrice) :
  gas_price_for_order_placement arguments = Some strategy ->
  match strategy with
  | IncreasingGasPrice initial increase every max =>
      gas_price arguments = Some initial /\ 0 < initial
      /\ gas_price_increase arguments = Some increase /\ 0 < increase
      /\ every = gas_price_increase_every arguments /\ max = gas_price_max arguments
  | FixedGasPrice price =>
      gas_price arguments = Some price /\ 0 < price
      /\ exists increase, gas_price_increase arguments = Some increase /\ increase <= 0
  | DefaultGasPrice =>
      exists price, gas_price arguments = Some price /\ price <= 0
  end.
Proof.
  unfold gas_price_for_order_placement, and_then, greater_than_zero.
  destruct (gas_price arguments) as [price|]; [|discriminate].
  destruct (0 <? price) eqn:Ep; [apply Z.ltb_lt in Ep | apply Z.ltb_ge in Ep].
  - destruct (gas_price_increase arguments) as [inc|]; [|discriminate].
    destruct (0 <? inc) eqn:Ei; [apply Z.ltb_lt in Ei | apply Z.ltb_ge in Ei];
      intros H; injection H as <-; repeat split; eauto.
  - intros H; injection H as <-. eauto.
Qed.

(** X7: without a positive cancellation gas price a cancellation uses the
    strategy of a placement, whether or not a cancellation increase is given. *)
Theorem cancellation_falls_back (arguments : GasArguments) (price : Z) :
  cancel_gas_price arguments = Some price -> price <= 0 ->
  gas_price_for_order_cancellation arguments = gas_price_for_order_placement arguments.
Proof.
  intros Hc Hp. unfold gas_price_for_order_cancellation, and_then, greater_than_zero.
  rewrite Hc. assert (E : (0 <? price) = false) by (apply Z.ltb_ge; exact Hp).
  rewrite E. reflexivity.
Qed.

(** X8: with a positive cancellation gas price a cancellation never looks at the
    placement options: it raises without a cancellation increase, increases
    with a positive one and is fixed otherwise. *)
Theorem cancellation_own_strategy (arguments : GasArguments) (price : Z) :
  cancel_gas_price arguments = Some price -> 0 < price ->
  gas_price_for_order_cancellation arguments =
  match cancel_gas_price_increase arguments with
  | None => None
  | Some increase =>
      if 0 <? increase
      then Some (IncreasingGasPrice price increase
                   (cancel_gas_price_increase_every arguments)
                   (cancel_gas_price_max arguments))
      else Some (FixedGasPrice price)
  end.
Proof.
  intros Hc Hp. unfold gas_price_for_order_cancellation, and_then, greater_than_zero.
  rewrite Hc. assert (E : (0 <? price) = true) by (apply Z.ltb_lt; exact Hp).
  rewrite E. destruct (cancel_gas_price_increase arguments) as [inc|]; [|reflexivity].
  destruct (0 <? inc); reflexivity.
Qed.

(** ** What a pass cancels and places *)

Section PassIntents.
Context {World : Type} {venue : Venue World}.
Context {band_methods : BandMethods} {wad_ops : WadOps}.
Variable self : Keeper.

Lemma in_places (m : Make) (log : list Event) : In (Place m) log <-> In m (places log).
Proof.
  unfold places. rewrite in_flat_map. split.
  - intros H. exists (Place m). split; [exact H | left; reflexivity].
  - intros (e & He & Hm). destruct e; simpl in Hm; try tauto.
    destruct Hm as [->|[]]. exact He.
Qed.

Lemma in_kills (id : Z) (log : list Event) : In (Kill id) log <-> In id (kills log).
Proof.
  unfold kills. rewrite in_flat_map. split.
  - intros H. exists (Kill id). split; [exact H | left; reflexivity].
  - intros (e & He & Hm). destruct e; simpl in Hm; try tauto.
    destruct Hm as [->|[]]. exact He.
Qed.

Lemma kills_of_places (ms : list Make) : kills (map Place ms) = [].
Proof. induction ms; simpl; auto. Qed.

Lemma places_of_places (ms : list Make) : places (map Place ms) = ms.
Proof.
  induction ms as [|m l IH]; [reflexivity|].
  change (m :: places (map Place l) = m :: l). now rewrite IH.
Qed.

Lemma band_configuration_silent (w : World) :
  kills (log_of (band_configuration w)) = []
  /\ places (log_of (band_configuration w)) = [].
Proof. destruct (band_configuration_log w) as [E|E]; rewrite E; auto. Qed.

Lemma can_cancel_selected (orders : list Order) :
  gas_price_for_order_cancellation (arguments self) <> None ->
  can_cancel self orders = true.
Proof.
  intros H. unfold can_cancel, gas_selected.
  destruct orders, (gas_price_for_order_cancellation (arguments self));
    try reflexivity. congruence.
Qed.

(** What a pass with a price returns, cancels and places. *)
Lemma pass_with_price (w : World) (p : Wad) :
  min_eth_balance self <= eth_balance w (our_address self) ->
  get_price w = Some p ->
  let run := synchronize_orders self w in
  let makes := flat_map yields (top_up_steps self w p Buy)
               ++ flat_map yields (top_up_steps self w p Sell) in
  (can_cancel self (cancel_intents self w p) = true ->
     kills (log_of run) = map order_id (cancel_intents self w p))
  /\ (can_cancel self (cancel_intents self w p) = true ->
      top_up_goes_through self w p = true ->
      result_of run = Some tt
      /\ places (log_of run) = makes
      /\ world_of run = submit_makes (our_address self) makes (after_cancels self w p)
      /\ exists calls, log_of run = calls ++ map Place makes)
  /\ (can_cancel self (cancel_intents self w p) = true ->
      top_up_goes_through self w p = false ->
      result_of run = None /\ places (log_of run) = []
      /\ world_of run = after_cancels self w p)
  /\ (can_cancel self (cancel_intents self w p) = false ->
      result_of run = None /\ kills (log_of run) = [] /\ places (log_of run) = []
      /\ world_of run = w).
Proof.
  intros Heth Hprice. cbv zeta. rewrite (synchronize_orders_run self w p Heth Hprice).
  cbv zeta. destruct (band_configuration_silent w) as [Hk Hp].
  unfold top_up_goes_through.
  set (log1 := EthBalance :: log_of (band_configuration w)
               ++ GetOrders :: GetPrice :: cancel_events (cancel_intents self w p)
               ++ [GetOrders; BalanceOf (sai self)]).
  assert (K1 : kills log1 = map order_id (cancel_intents self w p)).
  { unfold log1. change (kills (EthBalance :: ?l)) with (kills l).
    rewrite kills_app, Hk.
    change (kills (GetOrders :: GetPrice :: ?l)) with (kills l).
    rewrite kills_app. unfold cancel_events. rewrite kills_of_cancels.
    simpl. now rewrite app_nil_r. }
  assert (P1 : places log1 = []).
  { unfold log1. change (places (EthBalance :: ?l)) with (places l).
    rewrite places_app, Hp.
    change (places (GetOrders :: GetPrice :: ?l)) with (places l).
    rewrite places_app. unfold cancel_events. rewrite places_of_cancels. reflexivity. }
  clearbody log1.
  assert (K0 : kills (EthBalance :: log_of (band_configuration w)
                      ++ [GetOrders; GetPrice]) = []).
  { change (kills (EthBalance :: ?l)) with (kills l). rewrite kills_app, Hk.
    reflexivity. }
  assert (P0 : places (EthBalance :: log_of (band_configuration w)
                       ++ [GetOrders; GetPrice]) = []).
  { change (places (EthBalance :: ?l)) with (places l). rewrite places_app, Hp.
    reflexivity. }
  set (log0 := EthBalance :: log_of (band_configuration w) ++ [GetOrders; GetPrice])
    in *. clearbody log0.
  destruct (can_cancel self (cancel_intents self w p));
    [|repeat split; intros; try discriminate; auto].
  destruct (forallb ok (top_up_steps self w p Buy)
            && can_place self (flat_map yields (top_up_steps self w p Buy)));
    [destruct (forallb ok (top_up_steps self w p Sell)
               && can_place self (flat_map yields (top_up_steps self w p Sell)))|];
    unfold result_of, world_of, log_of; simpl fst; simpl snd; simpl andb.
  - repeat split; intros; try discriminate; auto.
    + rewrite kills_app, K1.
      change (kills (BalanceOf (gem self) :: ?l)) with (kills l).
      rewrite kills_of_places. apply app_nil_r.
    + rewrite places_app, P1.
      change (places (BalanceOf (gem self) :: ?l)) with (places l).
      rewrite places_of_places. reflexivity.
    + exists (log1 ++ [BalanceOf (gem self)]). rewrite <- app_assoc. reflexivity.
  - repeat split; intros; try discriminate; auto.
    + rewrite kills_app, K1. apply app_nil_r.
    + rewrite places_app, P1. reflexivity.
  - repeat split; intros; try discriminate; auto.
Qed.

(** The three ways a pass can go. *)
Lemma pass_cases (w : World) :
  (eth_balance w (our_address self) < min_eth_balance self)
  \/ (min_eth_balance self <= eth_balance w (our_address self) /\ get_price w = None)
  \/ (min_eth_balance self <= eth_balance w (our_address self)
      /\ exists p, get_price w = Some p).
Proof.
  destruct (Z_lt_le_dec (eth_balance w (our_address self)) (min_eth_balance self));
    [left; assumption|right].
  destruct (get_price w) as [p|]; [right; eauto | left; auto].
Qed.

(** What a pass without a price, or below the ETH minimum, cancels and
    places. *)
Lemma pass_cancelling_all (w : World) :
  eth_balance w (our_address self) < min_eth_balance self
  \/ (min_eth_balance self <= eth_balance w (our_address self) /\ get_price w = None) ->
  let run := synchronize_orders self w in
  places (log_of run) = []
  /\ (can_cancel self (own_orders self w) = true ->
      result_of run = Some tt /\ kills (log_of run) = map order_id (own_orders self w))
  /\ (can_cancel self (own_orders self w) = false ->
      result_of run = None /\ kills (log_of run) = []).
Proof.
  intros Hcase. cbv zeta.
  destruct (band_configuration_silent w) as [Hk Hp].
  destruct (can_cancel self (own_orders self w)) eqn:Hc.
  - assert (H : result_of (synchronize_orders self w) = Some tt
                /\ kills (log_of (synchronize_orders self w))
                   = map order_id (own_orders self w)
                /\ places (log_of (synchronize_orders self w)) = []).
    { destruct Hcase as [Hlow | [Hhigh Hnone]].
      - destruct (low_eth_balance_guard self w Hlow Hc) as (Hr & Hk' & _ & Hp' & _).
        auto.
      - rewrite (synchronize_orders_no_price self w Hhigh Hnone Hc).
        unfold result_of, log_of in *. simpl fst. simpl snd.
        change (kills (EthBalance :: ?l)) with (kills l).
        change (places (EthBalance :: ?l)) with (places l).
        rewrite kills_app, places_app, Hk, Hp.
        change (kills (GetOrders :: GetPrice :: Warning no_price_message
                       :: GetOrders :: ?l)) with (kills l).
        change (places (GetOrders :: GetPrice :: Warning no_price_message
                        :: GetOrders :: ?l)) with (places l).
        rewrite kills_of_cancels, places_of_cancels. auto. }
    destruct H as (Hr & Hk' & Hp'). repeat split; auto; discriminate.
  - assert (H : result_of (synchronize_orders self w) = None
                /\ kills (log_of (synchronize_orders self w)) = []
                /\ places (log_of (synchronize_orders self w)) = []).
    { destruct Hcase as [Hlow | [Hhigh Hnone]].
      - rewrite (synchronize_orders_low_balance_raises self w Hlow Hc).
        unfold result_of, log_of. simpl. auto.
      - rewrite (synchronize_orders_no_price_raises self w Hhigh Hnone Hc).
        unfold result_of, log_of in *. simpl fst. simpl snd.
        change (kills (EthBalance :: ?l)) with (kills l).
        change (places (EthBalance :: ?l)) with (places l).
        rewrite kills_app, places_app, Hk, Hp. auto. }
    destruct H as (Hr & Hk' & Hp'). repeat split; auto; discriminate.
Qed.

End PassIntents.

Section PassProperties.
Context {World : Type} {venue : Venue World}.
Context {band_methods : BandMethods} {wad_ops : WadOps}.
Variable self : Keeper.

Lemma configured_bands_on_overlap (w : World) (sd : Side) :
  bands_overlap (map BuyBand (buyBands (get_config w)))
  || bands_overlap (map SellBand (sellBands (get_config w))) = true ->
  configured_bands w sd = [].
Proof. intros H. unfold configured_bands. now rewrite H. Qed.

Lemma configured_bands_length (w : World) :
  (List.length (configured_bands w Buy) <= List.length (buyBands (get_config w)))%nat
  /\ (List.length (configured_bands w Sell) <= List.length (sellBands (get_config w)))%nat.
Proof.
  unfold configured_bands. destruct (_ || _); simpl; rewrite ?length_map; lia.
Qed.

(** Without bands every buy order and every sell order is outside. *)
Lemma cancel_intents_without_bands (w : World) (p : Wad) :
  configured_bands w Buy = [] -> configured_bands w Sell = [] ->
  cancel_intents self w p
  = our_buy_orders self (own_orders self w) ++ our_sell_orders self (own_orders self w).
Proof.
  intros Hb Hs. unfold cancel_intents. rewrite Hb, Hs.
  unfold excessive_buy_orders, excessive_sell_orders, outside_orders,
    outside_any_band_orders.
  simpl. rewrite !filter_all; auto.
Qed.

(** X9: on a tick with a price, when the gas price of a cancellation can be
    selected, overlapping bands make the pass ask for termination, cancel the
    buy orders and the sell orders of the keeper, in that order, and place
    nothing; orders of the keeper on other pairs stay. *)
Theorem overlap_tick_cancels_the_pair (w : World) (p : Wad) :
  gas_price_for_order_cancellation (arguments self) <> None ->
  min_eth_balance self <= eth_balance w (our_address self) ->
  get_price w = Some p ->
  bands_overlap (map BuyBand (buyBands (get_config w)))
  || bands_overlap (map SellBand (sellBands (get_config w))) = true ->
  let run := synchronize_orders self w in
  result_of run = Some tt
  /\ In (Terminate overlap_message) (log_of run)
  /\ kills (log_of run)
     = map order_id (our_buy_orders self (own_orders self w)
                     ++ our_sell_orders self (own_orders self w))
  /\ places (log_of run) = [].
Proof.
  intros Hgas Heth Hprice Hov. cbv zeta.
  pose proof (configured_bands_on_overlap w Buy Hov) as Hb.
  pose proof (configured_bands_on_overlap w Sell Hov) as Hs.
  pose proof (can_cancel_selected self (cancel_intents self w p) Hgas) as Hc.
  destruct (pass_with_price self w p Heth Hprice) as (Hk & Hok & _).
  assert (Eb : top_up_steps self w p Buy = [])
    by (unfold top_up_steps; rewrite Hb; reflexivity).
  assert (Es : top_up_steps self w p Sell = [])
    by (unfold top_up_steps; rewrite Hs; reflexivity).
  assert (Hgo : top_up_goes_through self w p = true)
    by (unfold top_up_goes_through; rewrite Eb, Es; reflexivity).
  cbv zeta in Hok. rewrite Eb, Es in Hok.
  destruct (Hok Hc Hgo) as (Hr & Hp & _ & _). specialize (Hk Hc).
  rewrite (cancel_intents_without_bands w p Hb Hs) in Hk.
  repeat split; auto.
  rewrite (synchronize_orders_run self w p Heth Hprice). cbv zeta.
  rewrite Hc. unfold top_up_goes_through in Hgo.
  apply andb_true_iff in Hgo. destruct Hgo as [G1 G2]. rewrite G1, G2.
  unfold log_of at 1. unfold snd.
  rewrite band_configuration_run. cbv zeta. rewrite Hov.
  unfold log_of. simpl. right. right. left. reflexivity.
Qed.

(** The log of a pass: some calls without a place, then the places. *)
Lemma log_shape (w : World) :
  exists calls ms,
    log_of (synchronize_orders self w) = calls ++ map Place ms /\ places calls = [].
Proof.
  assert (Hquiet : places (log_of (synchronize_orders self w)) = [] ->
            exists calls ms,
              log_of (synchronize_orders self w) = calls ++ map Place ms
              /\ places calls = []).
  { intros Hp. exists (log_of (synchronize_orders self w)), []. simpl.
    rewrite app_nil_r. auto. }
  destruct (pass_cases self w) as [Hlow | [Hnone | (Heth & p & Hprice)]].
  - apply Hquiet. apply (pass_cancelling_all self w). left. exact Hlow.
  - apply Hquiet. apply (pass_cancelling_all self w). right. exact Hnone.
  - destruct (pass_with_price self w p Heth Hprice) as (_ & Hok & Hbad & Hstuck).
    cbv zeta in *.
    destruct (can_cancel self (cancel_intents self w p));
      [|apply Hquiet; apply (Hstuck eq_refl)].
    destruct (top_up_goes_through self w p);
      [|apply Hquiet; apply (Hbad eq_refl eq_refl)].
    destruct (Hok eq_refl eq_refl) as (_ & Hp & _ & calls & Hlog).
    exists calls. eexists. split; [exact Hlog|].
    rewrite Hlog, places_app, places_of_places in Hp.
    apply (app_inv_tail (flat_map yields (top_up_steps self w p Buy)
                         ++ flat_map yields (top_up_steps self w p Sell))).
    exact Hp.
Qed.

Lemma place_in_calls (calls rest before after : list Event) (m : Make) :
  places calls = [] ->
  calls ++ rest = before ++ Place m :: after ->
  exists rest1, rest = rest1 ++ Place m :: after.
Proof.
  revert before. induction calls as [|e calls IH]; intros before Hp Heq.
  - exists before. exact Heq.
  - destruct before as [|b before].
    + simpl in Heq. injection Heq as -> _. discriminate Hp.
    + simpl in Heq. injection Heq as _ Heq. apply (IH before); [|exact Heq].
      destruct e; simpl in Hp; try exact Hp. discriminate Hp.
Qed.

(** X10: in the calls of a pass no kill comes after a place. *)
Theorem pass_kills_before_it_places (w : World) :
  kills_before_places (log_of (synchronize_orders self w)).
Proof.
  intros before after m id Hlog Hin.
  destruct (log_shape w) as (calls & ms & Hshape & Hcalls).
  rewrite Hshape in Hlog.
  destruct (place_in_calls calls (map Place ms) before after m Hcalls Hlog)
    as [rest1 Hrest].
  assert (Hk : In (Kill id) (map Place ms))
    by (rewrite Hrest, in_app_iff; right; right; exact Hin).
  apply in_map_iff in Hk. destruct Hk as (m' & Hm' & _). discriminate Hm'.
Qed.

(** X11: when the gas price of a cancellation can be selected, a pass that
    raises has a price, has sent its cancels and places nothing, not even
    what the bands before the raising one yielded. *)
Theorem raising_pass_places_nothing (w : World) :
  gas_price_for_order_cancellation (arguments self) <> None ->
  result_of (synchronize_orders self w) = None ->
  places (log_of (synchronize_orders self w)) = []
  /\ exists p, get_price w = Some p
               /\ kills (log_of (synchronize_orders self w))
                  = map order_id (cancel_intents self w p)
               /\ world_of (synchronize_orders self w) = after_cancels self w p.
Proof.
  intros Hgas Hnone.
  destruct (pass_cases self w) as [Hlow | [Hno | (Heth & p & Hprice)]].
  - destruct (pass_cancelling_all self w (or_introl Hlow)) as (_ & Hr & _).
    destruct (Hr (can_cancel_selected self _ Hgas)) as (Hr' & _). congruence.
  - destruct (pass_cancelling_all self w (or_intror Hno)) as (_ & Hr & _).
    destruct (Hr (can_cancel_selected self _ Hgas)) as (Hr' & _). congruence.
  - destruct (pass_with_price self w p Heth Hprice) as (Hk & Hok & Hbad & _).
    pose proof (can_cancel_selected self (cancel_intents self w p) Hgas) as Hc.
    cbv zeta in *. destruct (top_up_goes_through self w p).
    + destruct (Hok Hc eq_refl) as (Hr & _). congruence.
    + destruct (Hbad Hc eq_refl) as (_ & Hp & Hw). split; [exact Hp|]. eauto.
Qed.

Lemma side_orders_own (orders : list Order) (o : Order) :
  In o (our_buy_orders self orders) \/ In o (our_sell_orders self orders) ->
  In o orders /\ on_pair self o = true.
Proof.
  unfold our_buy_orders, our_sell_orders, on_pair. rewrite !filter_In.
  intros [[H1 H2] | [H1 H2]]; rewrite H2; auto using orb_true_r.
Qed.

Lemma cancel_intents_own (w : World) (p : Wad) (o : Order) :
  excessive_within ->
  In o (cancel_intents self w p) ->
  In o (own_orders self w) /\ on_pair self o = true.
Proof.
  intros Hexc Hin. unfold cancel_intents, excessive_buy_orders, excessive_sell_orders,
    outside_orders, outside_any_band_orders in Hin.
  rewrite !in_app_iff, !in_flat_map in Hin. apply side_orders_own.
  destruct Hin as [(band & _ & H) | [(band & _ & H) | [H | H]]].
  - left. exact (Hexc _ _ _ _ H).
  - right. exact (Hexc _ _ _ _ H).
  - left. apply filter_In in H. tauto.
  - right. apply filter_In in H. tauto.
Qed.

(** X12: when the bands give up only orders they were given, every kill of a
    pass is for an open order that the keeper owns. *)
Theorem pass_kills_own_orders (w : World) (id : Z) :
  excessive_within ->
  In (Kill id) (log_of (synchronize_orders self w)) ->
  exists o, In o (get_orders w) /\ owner o = our_address self /\ order_id o = id.
Proof.
  intros Hexc Hin. apply in_kills in Hin.
  assert (Hown : exists o, In o (own_orders self w) /\ order_id o = id).
  { assert (Hall : eth_balance w (our_address self) < min_eth_balance self
                   \/ (min_eth_balance self <= eth_balance w (our_address self)
                       /\ get_price w = None) ->
                   exists o, In o (own_orders self w) /\ order_id o = id).
    { intros Hcase. destruct (pass_cancelling_all self w Hcase) as (_ & Hgo & Hstuck).
      destruct (can_cancel self (own_orders self w)).
      - destruct (Hgo eq_refl) as (_ & Hk). rewrite Hk in Hin.
        apply in_map_iff in Hin. destruct Hin as (o & E & Ho). eauto.
      - destruct (Hstuck eq_refl) as (_ & Hk). rewrite Hk in Hin. destruct Hin. }
    destruct (pass_cases self w) as [Hlow | [Hno | (Heth & p & Hprice)]]; auto.
    destruct (pass_with_price self w p Heth Hprice) as (Hk & _ & _ & Hstuck).
    destruct (can_cancel self (cancel_intents self w p)).
    - rewrite (Hk eq_refl) in Hin. apply in_map_iff in Hin.
      destruct Hin as (o & E & Ho).
      exists o. split; [|exact E]. exact (proj1 (cancel_intents_own w p o Hexc Ho)).
    - destruct (Hstuck eq_refl) as (_ & Hk' & _). rewrite Hk' in Hin. destruct Hin. }
  destruct Hown as (o & Ho & E). unfold own_orders in Ho. apply filter_In in Ho.
  destruct Ho as [Ho Hown]. apply Z.eqb_eq in Hown. eauto.
Qed.

(** X13: with enough ETH and a price, and bands that give up only orders they
    were given, a pass kills only orders of the keeper on the pair: its
    orders on other pairs are never touched. *)
Theorem reconciliation_spares_other_pairs (w : World) (p : Wad) (id : Z) :
  excessive_within ->
  min_eth_balance self <= eth_balance w (our_address self) ->
  get_price w = Some p ->
  In (Kill id) (log_of (synchronize_orders self w)) ->
  exists o, In o (own_orders self w) /\ order_id o = id /\ on_pair self o = true.
Proof.
  intros Hexc Heth Hprice Hin. apply in_kills in Hin.
  destruct (pass_with_price self w p Heth Hprice) as (Hk & _ & _ & Hstuck).
  destruct (can_cancel self (cancel_intents self w p)).
  - rewrite (Hk eq_refl) in Hin. apply in_map_iff in Hin.
    destruct Hin as (o & E & Ho).
    destruct (cancel_intents_own w p o Hexc Ho). eauto.
  - destruct (Hstuck eq_refl) as (_ & Hk' & _). rewrite Hk' in Hin. destruct Hin.
Qed.

Lemma yields_of_steps (w : World) (p : Wad) (sd : Side) (m : Make) :
  In m (flat_map yields (top_up_steps self w p sd)) ->
  have_token m = have_token_of self sd /\ want_token m = want_token_of self sd
  /\ 0 < have_amount m /\ 0 < want_amount m.
Proof.
  intros Hm. destruct (yield_position _ _ Hm) as (i & s & Hi & Hs).
  unfold top_up_steps in Hi.
  destruct (band_of_step _ _ _ _ _ Hi) as [band Hband].
  rewrite (run_bands_nth _ _ _ _ _ _ Hband Hi) in Hs.
  exact (yields_shape self p sd _ _ _ m Hs).
Qed.

(** X14: every order a pass places sells a positive amount for a positive
    amount, SAI for the other token or the other token for SAI. *)
Theorem pass_places_sound_orders (w : World) (m : Make) :
  In (Place m) (log_of (synchronize_orders self w)) ->
  0 < have_amount m /\ 0 < want_amount m
  /\ ((have_token m = sai self /\ want_token m = gem self)
      \/ (have_token m = gem self /\ want_token m = sai self)).
Proof.
  intros Hin. apply in_places in Hin.
  destruct (pass_cases self w) as [Hlow | [Hno | (Heth & p & Hprice)]].
  - destruct (pass_cancelling_all self w (or_introl Hlow)) as (Hp & _).
    rewrite Hp in Hin. destruct Hin.
  - destruct (pass_cancelling_all self w (or_intror Hno)) as (Hp & _).
    rewrite Hp in Hin. destruct Hin.
  - destruct (pass_with_price self w p Heth Hprice) as (_ & Hok & Hbad & Hstuck).
    cbv zeta in *.
    destruct (can_cancel self (cancel_intents self w p));
      [|destruct (Hstuck eq_refl) as (_ & _ & Hp & _); rewrite Hp in Hin;
        destruct Hin].
    destruct (top_up_goes_through self w p).
    + destruct (Hok eq_refl eq_refl) as (_ & Hp & _). rewrite Hp in Hin.
      apply in_app_iff in Hin. destruct Hin as [Hin | Hin];
        destruct (yields_of_steps w p _ m Hin) as (H1 & H2 & H3 & H4);
        simpl in H1, H2; auto.
    + destruct (Hbad eq_refl eq_refl) as (_ & Hp & _). rewrite Hp in Hin.
      destruct Hin.
Qed.

Lemma yields_at_most_one (sd : Side) (orders : list Order) (p : Wad) (band : Band)
    (our_balance : Wad) :
  (List.length (yields (top_up_band self sd orders p band our_balance)) <= 1)%nat.
Proof.
  destruct (top_up_band_cases self orders p sd band our_balance)
    as [(_ & _ & _ & _ & _ & [Hy | (m & Hy & _)]) | (_ & Hs)]; cbv zeta in *.
  - rewrite Hy. simpl. lia.
  - rewrite Hy. simpl. lia.
  - rewrite Hs. simpl. lia.
Qed.

Lemma yields_at_most_bands (sd : Side) (orders : list Order) (p : Wad)
    (bands : list Band) (our_balance : Wad) :
  (List.length (flat_map yields (run_bands (top_up_band self sd orders p) bands our_balance))
   <= List.length bands)%nat.
Proof.
  revert our_balance. induction bands as [|band rest IH]; intros our_balance; simpl.
  - lia.
  - pose proof (yields_at_most_one sd orders p band our_balance) as H1.
    rewrite length_app.
    destruct (ok (top_up_band self sd orders p band our_balance)).
    + specialize (IH (balance_after (top_up_band self sd orders p band our_balance))).
      lia.
    + simpl. lia.
Qed.

(** X15: a pass places at most one order for each configured band. *)
Theorem pass_places_one_order_per_band (w : World) :
  (List.length (places (log_of (synchronize_orders self w)))
   <= List.length (buyBands (get_config w)) + List.length (sellBands (get_config w)))%nat.
Proof.
  destruct (pass_cases self w) as [Hlow | [Hno | (Heth & p & Hprice)]].
  - destruct (pass_cancelling_all self w (or_introl Hlow)) as (Hp & _).
    rewrite Hp. simpl. lia.
  - destruct (pass_cancelling_all self w (or_intror Hno)) as (Hp & _).
    rewrite Hp. simpl. lia.
  - destruct (pass_with_price self w p Heth Hprice) as (_ & Hok & Hbad & Hstuck).
    cbv zeta in *.
    destruct (can_cancel self (cancel_intents self w p));
      [|destruct (Hstuck eq_refl) as (_ & _ & Hp & _); rewrite Hp; simpl; lia].
    destruct (top_up_goes_through self w p).
    + destruct (Hok eq_refl eq_refl) as (_ & Hp & _). rewrite Hp, length_app.
      unfold top_up_steps.
      pose proof (yields_at_most_bands Buy (own_orders self (after_cancels self w p)) p
                    (configured_bands w Buy)
                    (balance_of (have_token_of self Buy) (after_cancels self w p)
                       (our_address self))).
      pose proof (yields_at_most_bands Sell (own_orders self (after_cancels self w p)) p
                    (configured_bands w Sell)
                    (balance_of (have_token_of self Sell) (after_cancels self w p)
                       (our_address self))).
      destruct (configured_bands_length w). lia.
    + destruct (Hbad eq_refl eq_refl) as (_ & Hp & _). rewrite Hp. simpl. lia.
Qed.

End PassProperties.

(** X23: the fees of a pass can take the keeper below its minimum ETH
    balance: the pass of [keeper_edge] on [chain_wide] returns, having
    cancelled order 1 and placed order 2, and the pass that follows asks the
    keeper to terminate and cancels order 2. *)
Theorem fees_flip_the_guard :
  result_of (synchronize_orders keeper_edge chain_wide) = Some tt
  /\ kills (log_of (synchronize_orders keeper_edge chain_wide)) = [1]
  /\ map order_id (own_orders keeper_edge
                     (world_of (synchronize_orders keeper_edge chain_wide))) = [2]
  /\ log_of (second_pass keeper_edge chain_wide)
     = [EthBalance; Terminate low_balance_message; GetOrders; Kill 2].
Proof. vm_compute. repeat split; reflexivity. Qed.

(** ** More on top-up *)

Section MoreTopUp.
Context {band_methods : BandMethods} {wad_ops : WadOps}.
Variable self : Keeper.
Variable target_price : Wad.

(** X16: an order yielded for a band sells at least the [dust_cutoff] of the
    band, at most the balance left, and never takes the band above its
    [avg_amount]. *)
Theorem top_up_amount_bounds (sd : Side) (orders : list Order) (bands : list Band)
    (our_balance : Wad) (i : nat) (band : Band) (s : Step) (m : Make) :
  let body := top_up_band self sd orders target_price in
  nth_error bands i = Some band ->
  nth_error (run_bands body bands our_balance) i = Some s ->
  In m (yields s) ->
  let total := band_total self sd orders target_price band in
  let before := nth i (running_balances body bands our_balance) 0 in
  dust_cutoff band <= have_amount m /\ 0 < have_amount m
  /\ have_amount m <= before
  /\ total + have_amount m <= avg_amount band
  /\ balance_after s = before - have_amount m.
Proof.
  intros body Hband Hs Hm. cbv zeta.
  rewrite (run_bands_nth body bands our_balance i band s Hband Hs) in Hm |- *.
  set (before := nth i (running_balances body bands our_balance) 0) in *.
  clearbody before. unfold body in *.
  destruct (top_up_band_cases self orders target_price sd band before)
    as [(Hmin & Hdust & Hpos & Hbal & Hres & Hy) | (_ & Hskip)]; cbv zeta in *.
  - destruct Hy as [Hy | (m' & Hy & Hhave)]; rewrite Hy in Hm; [destruct Hm|].
    destruct Hm as [<-|[]]. rewrite Hbal, Hhave. unfold Wad in *. lia.
  - rewrite Hskip in Hm. destruct Hm.
Qed.

(** X17: a pass that starts without balance draws nothing and yields nothing,
    whatever the bands miss. *)
Theorem top_up_without_balance (sd : Side) (orders : list Order) (bands : list Band)
    (our_balance : Wad) :
  our_balance <= 0 ->
  run_bands (top_up_band self sd orders target_price) bands our_balance
  = map (fun _ => mkStep our_balance [] [] true) bands.
Proof.
  intros Hb. induction bands as [|band rest IH]; [reflexivity|]. simpl.
  destruct (top_up_band_cases self orders target_price sd band our_balance)
    as [(_ & _ & Hpos & _) | (_ & Hskip)]; cbv zeta in *.
  - exfalso. unfold Wad in *. lia.
  - rewrite Hskip. simpl. now rewrite IH.
Qed.

Lemma needs_nonneg (sd : Side) (orders : list Order) (bands : list Band) :
  0 <= needs self sd orders target_price bands.
Proof.
  unfold needs. induction bands as [|b rest IH]; simpl; [lia|]. unfold Wad in *. lia.
Qed.

(** X18: when the balance covers what all the bands of the side miss up to
    their [avg_amount], no band is cut short: what is drawn for a band is
    exactly what it misses. *)
Theorem top_up_with_enough_balance (sd : Side) (orders : list Order)
    (bands : list Band) (our_balance : Wad) (i : nat) (band : Band) (s : Step)
    (have : Wad) :
  needs self sd orders target_price bands <= our_balance ->
  nth_error bands i = Some band ->
  nth_error (run_bands (top_up_band self sd orders target_price) bands our_balance) i
  = Some s ->
  In have (reserved s) ->
  have = avg_amount band - band_total self sd orders target_price band.
Proof.
  revert our_balance i band s. induction bands as [|b rest IH];
    intros our_balance i band s Hneeds Hband Hs Hin; [destruct i; discriminate|].
  unfold needs in Hneeds. simpl map in Hneeds. simpl sum in Hneeds.
  fold (needs self sd orders target_price rest) in Hneeds.
  pose proof (needs_nonneg sd orders rest) as Hnn.
  simpl run_bands in Hs.
  pose proof (top_up_band_cases self orders target_price sd b our_balance) as Hc.
  cbv zeta in Hc.
  set (s0 := top_up_band self sd orders target_price b our_balance) in *.
  destruct i as [|i].
  - injection Hband as <-. injection Hs as <-.
    destruct Hc as [(_ & _ & Hpos & _ & Hres & _) | (_ & Hskip)].
    + rewrite Hres in Hin. destruct Hin as [<-|[]]. unfold Wad in *. lia.
    + rewrite Hskip in Hin. destruct Hin.
  - simpl nth_error in Hband, Hs.
    destruct (ok s0); [|destruct i; discriminate].
    apply (IH (balance_after s0) i band s); auto.
    destruct Hc as [(_ & _ & Hpos & Hbal & _) | (_ & Hskip)].
    + rewrite Hbal. unfold Wad in *. lia.
    + rewrite Hskip. simpl. unfold Wad in *. lia.
Qed.

Lemma sum_permutation (l l' : list Z) : Permutation l l' -> sum l = sum l'.
Proof.
  induction 1 as [|x l l' _ IH|x y l|l l' l'' _ IH1 _ IH2]; simpl; lia.
Qed.

Lemma band_total_permutation (sd : Side) (orders orders' : list Order) (band : Band) :
  Permutation orders orders' ->
  band_total self sd orders target_price band
  = band_total self sd orders' target_price band.
Proof.
  intros Hperm. unfold band_total. rewrite !total_amount_sum.
  apply sum_permutation, Permutation_map, filter_permutation.
  destruct sd; apply filter_permutation; exact Hperm.
Qed.

Lemma top_up_band_by_total (sd : Side) (orders orders' : list Order) (band : Band)
    (our_balance : Wad) :
  band_total self sd orders target_price band
  = band_total self sd orders' target_price band ->
  top_up_band self sd orders target_price band our_balance
  = top_up_band self sd orders' target_price band our_balance.
Proof.
  unfold band_total. intros H.
  destruct sd; simpl side_orders in H; simpl top_up_band;
    unfold top_up_buy_band, top_up_sell_band; rewrite H; reflexivity.
Qed.

Lemma run_bands_ext (body body' : Band -> Wad -> Step) (bands : list Band)
    (our_balance : Wad) :
  (forall band balance, body band balance = body' band balance) ->
  run_bands body bands our_balance = run_bands body' bands our_balance.
Proof.
  intros H. revert our_balance. induction bands as [|b rest IH]; intros r; simpl;
    [reflexivity|]. rewrite H. destruct (ok (body' b r)); [rewrite IH|]; reflexivity.
Qed.

(** X19: a top-up pass does not depend on the order in which the exchange
    lists the orders of the keeper. *)
Theorem top_up_any_order_of_orders (sd : Side) (orders orders' : list Order)
    (bands : list Band) (our_balance : Wad) :
  Permutation orders orders' ->
  run_bands (top_up_band self sd orders target_price) bands our_balance
  = run_bands (top_up_band self sd orders' target_price) bands our_balance.
Proof.
  intros Hperm. apply run_bands_ext. intros band balance.
  apply top_up_band_by_total, band_total_permutation, Hperm.
Qed.

End MoreTopUp.

(** ** Token balances *)

Section ReportFacts.
Context {World : Type} {venue : Venue World}.
Variable self : Keeper.

(** X20: when every open order of the keeper is on the pair, the SAI reported
    in orders is the total of its buy orders and the other token reported in
    orders is the total of its sell orders. *)
Theorem token_balances_on_the_pair (w : World) :
  sai self <> gem self ->
  (forall o, In o (own_orders self w) -> on_pair self o = true) ->
  map balance_in_our_sell_orders (print_token_balances self w)
  = [ total_amount (our_buy_orders self (own_orders self w));
      total_amount (our_sell_orders self (own_orders self w)) ]
  /\ map total_balance (print_token_balances self w)
     = [ total_amount (our_buy_orders self (own_orders self w))
         + balance_of (sai self) w (our_address self);
         total_amount (our_sell_orders self (own_orders self w))
         + balance_of (gem self) w (our_address self) ].
Proof.
  intros Hne Hpair.
  assert (Eb : filter (fun o => sell_which_token o =? sai self) (own_orders self w)
               = our_buy_orders self (own_orders self w)).
  { apply filter_ext_in. intros o Ho. specialize (Hpair o Ho).
    unfold on_pair, is_buy_order, is_sell_order in *.
    destruct (buy_which_token o =? gem self) eqn:E1,
             (sell_which_token o =? sai self) eqn:E2,
             (buy_which_token o =? sai self) eqn:E3,
             (sell_which_token o =? gem self) eqn:E4;
      simpl in *; try reflexivity; try discriminate;
      rewrite ?Z.eqb_eq in *; congruence. }
  assert (Es : filter (fun o => sell_which_token o =? gem self) (own_orders self w)
               = our_sell_orders self (own_orders self w)).
  { apply filter_ext_in. intros o Ho. specialize (Hpair o Ho).
    unfold on_pair, is_buy_order, is_sell_order in *.
    destruct (buy_which_token o =? gem self) eqn:E1,
             (sell_which_token o =? sai self) eqn:E2,
             (buy_which_token o =? sai self) eqn:E3,
             (sell_which_token o =? gem self) eqn:E4;
      simpl in *; try reflexivity; try discriminate;
      rewrite ?Z.eqb_eq in *; congruence. }
  unfold print_token_balances, token_balance. simpl map.
  rewrite Eb, Es. split; reflexivity.
Qed.

End ReportFacts.

(** ** The further properties at sample data *)

Lemma one_band_never_overlaps_witness :
  (List.length [sell_band0] <= 1)%nat /\ bands_overlap [sell_band0] = false.
Proof.
  assert (H : (List.length [sell_band0] <= 1)%nat) by (simpl; lia).
  exact (conj H (one_band_never_overlaps [sell_band0] H)).
Defined.

Lemma ascending_bands_do_not_overlap_witness :
  Ascending (map SellBand adjacent_sell)
  /\ bands_overlap (map SellBand adjacent_sell) = false.
Proof.
  assert (H : Ascending (map SellBand adjacent_sell)).
  { simpl. apply Ascending_cons; [| |apply Ascending_one];
      unfold Qle; simpl; lia. }
  exact (conj H (ascending_bands_do_not_overlap _ H)).
Defined.

Lemma bands_overlap_any_order_witness :
  Permutation (map BuyBand overlapping_buy) (rev (map BuyBand overlapping_buy))
  /\ bands_overlap (map BuyBand overlapping_buy)
     = bands_overlap (rev (map BuyBand overlapping_buy)).
Proof.
  assert (H : Permutation (map BuyBand overlapping_buy)
                          (rev (map BuyBand overlapping_buy)))
    by apply Permutation_rev.
  exact (conj H (bands_overlap_any_order _ _ H)).
Defined.

Lemma bands_overlap_grows_witness :
  bands_overlap (map BuyBand overlapping_buy) = true
  /\ bands_overlap ([sell_band0] ++ map BuyBand overlapping_buy ++ []) = true.
Proof.
  assert (H : bands_overlap (map BuyBand overlapping_buy) = true)
    by (vm_compute; reflexivity).
  exact (conj H (bands_overlap_grows [sell_band0] _ [] H)).
Defined.

Lemma placement_strategy_witness :
  gas_price_for_order_placement fixed_gas_arguments = Some (FixedGasPrice 5)
  /\ exists increase, gas_price_increase fixed_gas_arguments = Some increase
                      /\ increase <= 0.
Proof.
  assert (H : gas_price_for_order_placement fixed_gas_arguments
              = Some (FixedGasPrice 5)) by reflexivity.
  split; [exact H|].
  exact (proj2 (proj2 (placement_strategy fixed_gas_arguments (FixedGasPrice 5) H))).
Defined.

Lemma cancellation_falls_back_witness :
  cancel_gas_price fixed_gas_arguments = Some 0 /\ 0 <= 0
  /\ gas_price_for_order_cancellation fixed_gas_arguments
     = gas_price_for_order_placement fixed_gas_arguments.
Proof.
  assert (H1 : cancel_gas_price fixed_gas_arguments = Some 0) by reflexivity.
  assert (H2 : 0 <= 0) by lia.
  exact (conj H1 (conj H2 (cancellation_falls_back fixed_gas_arguments 0 H1 H2))).
Defined.

Lemma cancellation_own_strategy_witness :
  cancel_gas_price cancel_gas_arguments = Some 7 /\ 0 < 7
  /\ gas_price_for_order_cancellation cancel_gas_arguments
     = Some (IncreasingGasPrice 7 2 60 (Some 20)).
Proof.
  assert (H1 : cancel_gas_price cancel_gas_arguments = Some 7) by reflexivity.
  assert (H2 : 0 < 7) by lia.
  exact (conj H1 (conj H2 (cancellation_own_strategy cancel_gas_arguments 7 H1 H2))).
Defined.

Lemma overlap_tick_cancels_the_pair_witness :
  gas_price_for_order_cancellation (arguments keeper0) <> None
  /\ min_eth_balance keeper0 <= eth_balance chain_overlap (our_address keeper0)
  /\ get_price chain_overlap = Some (wad 300)
  /\ kills (log_of (synchronize_orders keeper0 chain_overlap)) = [1]
  /\ places (log_of (synchronize_orders keeper0 chain_overlap)) = [].
Proof.
  assert (H0 : gas_price_for_order_cancellation (arguments keeper0) <> None)
    by (vm_compute; discriminate).
  assert (H1 : min_eth_balance keeper0 <= eth_balance chain_overlap (our_address keeper0))
    by (vm_compute; discriminate).
  assert (H2 : get_price chain_overlap = Some (wad 300)) by reflexivity.
  assert (H3 : bands_overlap (map BuyBand (buyBands (get_config chain_overlap)))
               || bands_overlap (map SellBand (sellBands (get_config chain_overlap)))
               = true) by (vm_compute; reflexivity).
  pose proof (overlap_tick_cancels_the_pair keeper0 chain_overlap (wad 300)
                H0 H1 H2 H3) as T.
  cbv zeta in T. destruct T as (_ & _ & Hk & Hp).
  split; [exact H0|]. split; [exact H1|]. split; [exact H2|]. split; [rewrite Hk; reflexivity | exact Hp].
Defined.

Lemma raising_pass_places_nothing_witness :
  gas_price_for_order_cancellation (arguments keeper0) <> None
  /\ result_of (synchronize_orders keeper0 chain_raising) = None
  /\ kills (log_of (synchronize_orders keeper0 chain_raising)) = [1]
  /\ places (log_of (synchronize_orders keeper0 chain_raising)) = [].
Proof.
  assert (H0 : gas_price_for_order_cancellation (arguments keeper0) <> None)
    by (vm_compute; discriminate).
  assert (H : result_of (synchronize_orders keeper0 chain_raising) = None)
    by (vm_compute; reflexivity).
  split; [exact H0|]. split; [exact H|]. split; [vm_compute; reflexivity|].
  exact (proj1 (raising_pass_places_nothing keeper0 chain_raising H0 H)).
Defined.

Lemma spec_bands_excessive_within : excessive_within.
Proof.
  intros band orders p o. simpl. unfold band_excessive_orders.
  destruct (_ <? _); [|intros []]. intros H. apply filter_In in H. tauto.
Qed.

Lemma pass_kills_own_orders_witness :
  In (Kill 1) (log_of (synchronize_orders keeper0 chain_wide))
  /\ exists o, In o (get_orders chain_wide) /\ owner o = our_address keeper0
               /\ order_id o = 1.
Proof.
  assert (H : In (Kill 1) (log_of (synchronize_orders keeper0 chain_wide)))
    by (vm_compute; do 4 right; left; reflexivity).
  exact (conj H (pass_kills_own_orders keeper0 chain_wide 1
                   spec_bands_excessive_within H)).
Defined.

Lemma reconciliation_spares_other_pairs_witness :
  min_eth_balance keeper0 <= eth_balance chain_wide (our_address keeper0)
  /\ get_price chain_wide = Some (wad 300)
  /\ In (Kill 1) (log_of (synchronize_orders keeper0 chain_wide))
  /\ exists o, In o (own_orders keeper0 chain_wide) /\ order_id o = 1
               /\ on_pair keeper0 o = true.
Proof.
  assert (H1 : min_eth_balance keeper0 <= eth_balance chain_wide (our_address keeper0))
    by (vm_compute; discriminate).
  assert (H2 : get_price chain_wide = Some (wad 300)) by reflexivity.
  assert (H3 : In (Kill 1) (log_of (synchronize_orders keeper0 chain_wide)))
    by (vm_compute; do 4 right; left; reflexivity).
  exact (conj H1 (conj H2 (conj H3
           (reconciliation_spares_other_pairs keeper0 chain_wide (wad 300) 1
              spec_bands_excessive_within H1 H2 H3)))).
Defined.

Lemma pass_places_sound_orders_witness :
  let m := mkMake WETH (wad 10) SAI (wad 3060) in
  In (Place m) (log_of (synchronize_orders keeper0 chain_wide))
  /\ 0 < have_amount m /\ 0 < want_amount m.
Proof.
  intros m.
  assert (H : In (Place m) (log_of (synchronize_orders keeper0 chain_wide)))
    by (vm_compute; do 8 right; left; reflexivity).
  destruct (pass_places_sound_orders keeper0 chain_wide m H) as (H1 & H2 & _).
  exact (conj H (conj H1 H2)).
Defined.

Lemma top_up_amount_bounds_witness :
  let body := top_up_band keeper0 Sell [] (wad 300) in
  let m := mkMake WETH (wad 10) SAI (wad 3060) in
  nth_error [sell_band0] 0 = Some sell_band0
  /\ nth_error (run_bands body [sell_band0] (wad 20)) 0 = Some (body sell_band0 (wad 20))
  /\ In m (yields (body sell_band0 (wad 20)))
  /\ dust_cutoff sell_band0 <= have_amount m
  /\ band_total keeper0 Sell [] (wad 300) sell_band0 + have_amount m
     <= avg_amount sell_band0.
Proof.
  intros body m.
  assert (H1 : nth_error [sell_band0] 0 = Some sell_band0) by reflexivity.
  assert (H2 : nth_error (run_bands body [sell_band0] (wad 20)) 0
               = Some (body sell_band0 (wad 20))) by reflexivity.
  assert (H3 : In m (yields (body sell_band0 (wad 20))))
    by (vm_compute; left; reflexivity).
  destruct (top_up_amount_bounds keeper0 (wad 300) Sell [] [sell_band0] (wad 20) 0
              sell_band0 (body sell_band0 (wad 20)) m H1 H2 H3) as (B1 & _ & _ & B4 & _).
  exact (conj H1 (conj H2 (conj H3 (conj B1 B4)))).
Defined.

Lemma top_up_without_balance_witness :
  0 <= 0
  /\ run_bands (top_up_band keeper0 Sell [] (wad 300)) [sell_band0; sell_band0] 0
     = [mkStep 0 [] [] true; mkStep 0 [] [] true].
Proof.
  assert (H : 0 <= 0) by lia.
  exact (conj H (top_up_without_balance keeper0 (wad 300) Sell []
                   [sell_band0; sell_band0] 0 H)).
Defined.

Lemma top_up_with_enough_balance_witness :
  let body := top_up_band keeper0 Sell [] (wad 300) in
  needs keeper0 Sell [] (wad 300) [sell_band0; sell_band0] <= wad 20
  /\ nth_error [sell_band0; sell_band0] 1 = Some sell_band0
  /\ nth_error (run_bands body [sell_band0; sell_band0] (wad 20)) 1
     = Some (body sell_band0 (wad 10))
  /\ In (wad 10) (reserved (body sell_band0 (wad 10)))
  /\ wad 10 = avg_amount sell_band0 - band_total keeper0 Sell [] (wad 300) sell_band0.
Proof.
  intros body.
  assert (H1 : needs keeper0 Sell [] (wad 300) [sell_band0; sell_band0] <= wad 20)
    by (vm_compute; discriminate).
  assert (H2 : nth_error [sell_band0; sell_band0] 1 = Some sell_band0) by reflexivity.
  assert (H3 : nth_error (run_bands body [sell_band0; sell_band0] (wad 20)) 1
               = Some (body sell_band0 (wad 10))) by (vm_compute; reflexivity).
  assert (H4 : In (wad 10) (reserved (body sell_band0 (wad 10))))
    by (vm_compute; left; reflexivity).
  exact (conj H1 (conj H2 (conj H3 (conj H4
           (top_up_with_enough_balance keeper0 (wad 300) Sell []
              [sell_band0; sell_band0] (wad 20) 1 sell_band0
              (body sell_band0 (wad 10)) (wad 10) H1 H2 H3 H4))))).
Defined.

Lemma top_up_any_order_of_orders_witness :
  let orders := book chain_overlap in
  Permutation orders (rev orders)
  /\ run_bands (top_up_band keeper0 Buy orders (wad 300)) [sell_band0] (wad 20)
     = run_bands (top_up_band keeper0 Buy (rev orders) (wad 300)) [sell_band0] (wad 20).
Proof.
  intros orders.
  assert (H : Permutation orders (rev orders)) by apply Permutation_rev.
  exact (conj H (top_up_any_order_of_orders keeper0 (wad 300) Buy orders (rev orders)
                   [sell_band0] (wad 20) H)).
Defined.

Lemma token_balances_on_the_pair_witness :
  sai keeper0 <> gem keeper0
  /\ (forall o, In o (own_orders keeper0 chain_wide) -> on_pair keeper0 o = true)
  /\ map total_balance (print_token_balances keeper0 chain_wide)
     = [wad 200; wad 25].
Proof.
  assert (H1 : sai keeper0 <> gem keeper0) by (vm_compute; discriminate).
  assert (H2 : forall o, In o (own_orders keeper0 chain_wide) -> on_pair keeper0 o = true)
    by (intros o [<-|[]]; reflexivity).
  destruct (token_balances_on_the_pair keeper0 chain_wide H1 H2) as (_ & T).
  split; [exact H1|]. split; [exact H2|]. rewrite T. vm_compute. reflexivity.
Defined.
